(** * The armature pose sensor of MORSE (morse/sensors/armature_pose.py)

    A shallow embedding of the class [ArmaturePose] and the properties of
    its joint-state resolution.

    Python objects are modelled as follows.
    - The Blender scene is a store of objects addressed by identity; an
      object has a name, an optional parent and, when it is an armature,
      a list of channels (the joints, root to tip).
    - A Python float is a binary64 value: the kernel's primitive [float].
    - An exception is a value of [Error]; a method of the sensor is a
      function from the sensor's attributes to an outcome and the
      attributes it leaves behind (they survive an exception).
    - A [dict] whose order is observable is an association list with
      unique keys, updated in place. *)

From Stdlib Require Import PrimFloat.
From Stdlib Require Import List String Bool Arith Lia.
Import ListNotations.
Open Scope string_scope.
Set Warnings "-inexact-float".

(** ** Exceptions and outcomes *)

Inductive Error : Type :=
  (* raised by the interpreter *)
  | AttributeError     (* attribute of [None], or attribute never assigned *)
  | StopIteration      (* [next] on an exhausted generator *)
  | IndexError         (* vector index out of range *)
  | RecursionError     (* recursion budget exhausted *)
  (* raised by the armature actuator *)
  | UnknownJoint (joint : string)
  (* the error taxonomy of the specification *)
  | NotAttached
  | NotReady
  | NoActiveAxis
  | MultipleActiveAxes.

Inductive Result (A : Type) : Type :=
  | Ok (a : A)
  | Err (e : Error).
Arguments Ok {A} a.
Arguments Err {A} e.

Definition is_ok {A} (r : Result A) : bool :=
  match r with Ok _ => true | Err _ => false end.

(** ** Floats, vectors and axis masks *)

Definition pyfloat : Type := PrimFloat.float.

(** A three-component vector (mathutils.Vector, or a list of three
    floats) and its subscript [v[i]]. *)
Definition Vector : Type := (pyfloat * pyfloat * pyfloat)%type.

Definition vec_item (v : Vector) (i : nat) : Result pyfloat :=
  let '(x, y, z) := v in
  match i with
  | 0 => Ok x
  | 1 => Ok y
  | 2 => Ok z
  | _ => Err IndexError
  end.

(** The three booleans saying which local axis (X, Y, Z) is free. *)
Definition Mask : Type := (bool * bool * bool)%type.

Definition mask_item (m : Mask) (i : nat) : bool :=
  let '(x, y, z) := m in
  match i with
  | 0 => x
  | 1 => y
  | 2 => z
  | _ => false
  end.

(** [enumerate(mask)] *)
Definition enumerate (m : Mask) : list (nat * bool) :=
  let '(x, y, z) := m in [(0, x); (1, y); (2, z)].

(** [next(i for i, j in pairs if j)] *)
Definition next_true (pairs : list (nat * bool)) : Result nat :=
  match find (fun p => snd p) pairs with
  | Some (i, _) => Ok i
  | None => Err StopIteration
  end.

(** Number of true entries of a mask. *)
Definition count_true (m : Mask) : nat :=
  let '(x, y, z) := m in
  (if x then 1 else 0) + (if y then 1 else 0) + (if z then 1 else 0).

(** ** Dictionaries with observable insertion order *)

Definition Dict (V : Type) : Type := list (string * V).

Fixpoint dict_get {V} (d : Dict V) (k : string) : option V :=
  match d with
  | [] => None
  | (k', v) :: d' => if String.eqb k' k then Some v else dict_get d' k
  end.

(** [d[k] = v]: overwrite in place, or append a new key. *)
Fixpoint dict_set {V} (d : Dict V) (k : string) (v : V) : Dict V :=
  match d with
  | [] => [(k, v)]
  | (k', v') :: d' =>
      if String.eqb k' k then (k', v) :: d' else (k', v') :: dict_set d' k v
  end.

(** ** The scene *)

Inductive JointKind : Type := Rotational | Prismatic.

(** A channel of an armature (one joint).  The fields are the attributes
    the sensor reads: [head_pose] in [get_joint], [pose_head] and
    [pose_tail] in [get_joints_length], [joint_rotation] in [get_joint]
    and [default_action].  [kind] is modelled from the spec (a joint is
    Rotational or Prismatic): it is what the actuator's [_get_joint]
    reports as [is_prismatic]. *)
Record Channel : Type := mkChannel {
  name : string;
  kind : JointKind;
  joint_rotation : Vector;
  head_pose : Vector;
  pose_head : Vector;
  pose_tail : Vector
}.

Definition ObjId : Type := nat.

Record Scene : Type := mkScene {
  obj_name : ObjId -> string;
  obj_parent : ObjId -> option ObjId;            (* [obj.parent] *)
  obj_channels : ObjId -> option (list Channel)  (* [obj.channels], if any *)
}.

(** [hasattr(obj, "channels")] *)
Definition hasattr_channels (sc : Scene) (obj : ObjId) : bool :=
  match obj_channels sc obj with Some _ => true | None => false end.

(** Modelled from the spec: the armature actuator
    (morse/actuators/armature.py) is a collaborator whose code is not
    among the sources.  It belongs to one body and owns, per joint name,
    the 3-boolean axis mask ([dofMask(jointName) -> 3-bool]); both the
    attribute [_dofs] and the method [find_dof] read that mask. *)
Record Actuator : Type := mkActuator {
  act_body : ObjId;
  _dofs : string -> Mask
}.

Definition find_dof (act : Actuator) (channel : Channel) : Mask :=
  _dofs act (name channel).

Definition is_prismatic (channel : Channel) : bool :=
  match kind channel with Prismatic => true | Rotational => false end.

(** Modelled from the spec: the actuator's helper [_get_joint(joint)]
    finds the named joint in the chain of the actuator's body and returns
    it with its kind; a name absent from the chain fails with
    [UnknownJoint]. *)
Definition _get_joint (sc : Scene) (act : Actuator) (joint : string)
  : Result (Channel * bool) :=
  match obj_channels sc (act_body act) with
  | None => Err AttributeError
  | Some chans =>
      match find (fun c => String.eqb (name c) joint) chans with
      | Some channel => Ok (channel, is_prismatic channel)
      | None => Err (UnknownJoint joint)
      end
  end.

(** What a method can see outside the sensor: the scene and the registry
    [blenderapi.persistantstorage().componentDict], keyed by object
    name. *)
Record World : Type := mkWorld {
  scene : Scene;
  componentDict : Dict Actuator
}.

(** ** The sensor *)

(** The attributes of an [ArmaturePose] instance.  [_armature_actuator]
    is [None] while the attribute has never been assigned (the early
    return of the constructor), [Some None] when it holds Python's
    [None], and [Some (Some act)] once bound. *)
Record ArmaturePose : Type := mkArmaturePose {
  blender_obj : ObjId;
  local_data : Dict pyfloat;
  armature : option ObjId;
  _armature_actuator : option (option Actuator)
}.

Definition set_local_data (self : ArmaturePose) (d : Dict pyfloat) :=
  mkArmaturePose (blender_obj self) d (armature self) (_armature_actuator self).

Definition set_armature_actuator (self : ArmaturePose) (a : option Actuator) :=
  mkArmaturePose (blender_obj self) (local_data self) (armature self) (Some a).

(** A method body: reads and updates the attributes, returns or raises. *)
Definition M (A : Type) : Type := ArmaturePose -> Result A * ArmaturePose.

Definition ret {A} (a : A) : M A := fun self => (Ok a, self).

Definition raise {A} (e : Error) : M A := fun self => (Err e, self).

Definition lift {A} (r : Result A) : M A := fun self => (r, self).

Definition bind {A B} (m : M A) (k : A -> M B) : M B :=
  fun self =>
    match m self with
    | (Ok a, self') => k a self'
    | (Err e, self') => (Err e, self')
    end.

Notation "x <- m ;; k" := (bind m (fun x => k))
  (at level 61, m at next level, right associativity).
Notation "m ;;; k" := (bind m (fun _ => k))
  (at level 61, right associativity).

(** [for x in xs: body(x)] *)
Fixpoint for_each {A} (xs : list A) (body : A -> M unit) : M unit :=
  match xs with
  | [] => ret tt
  | x :: xs' => body x ;;; for_each xs' body
  end.

(** [self.armature] *)
Definition self_armature : M (option ObjId) :=
  fun self => (Ok (armature self), self).

(** [self._armature_actuator]: an attribute error when never assigned. *)
Definition self_armature_actuator : M (option Actuator) :=
  fun self =>
    match _armature_actuator self with
    | Some a => (Ok a, self)
    | None => (Err AttributeError, self)
    end.

(** [self.armature.channels] *)
Definition self_armature_channels (w : World) : M (list Channel) :=
  a <- self_armature ;;
  match a with
  | None => raise AttributeError
  | Some arm =>
      match obj_channels (scene w) arm with
      | Some chans => ret chans
      | None => raise AttributeError
      end
  end.

(** [_get_armature]: the walk up the parent links.  [fuel] is the
    recursion budget of the interpreter. *)
Fixpoint _get_armature (sc : Scene) (fuel : nat) (obj : ObjId)
  : Result (option ObjId) :=
  match fuel with
  | 0 => Err RecursionError
  | S fuel' =>
      if hasattr_channels sc obj then Ok (Some obj)
      else
        match obj_parent sc obj with
        | None => Ok None
        | Some p => _get_armature sc fuel' p
        end
  end.

(** Modelled from the spec: the constructor of the base class
    (morse.core.sensor.Sensor) records the Blender object and creates the
    published mapping empty. *)
Definition Sensor__init__ (obj : ObjId) : ObjId * Dict pyfloat := (obj, []).

(** [__init__] *)
Definition __init__ (w : World) (fuel : nat) (obj : ObjId)
  : Result ArmaturePose :=
  let '(bobj, data) := Sensor__init__ obj in
  match _get_armature (scene w) fuel bobj with
  | Err e => Err e
  | Ok None =>
      (* logger.error(...); return *)
      Ok (mkArmaturePose bobj data None None)
  | Ok (Some arm) =>
      match obj_channels (scene w) arm with
      | None => Err AttributeError
      | Some chans =>
          Ok (mkArmaturePose bobj
                (fold_left (fun d channel => dict_set d (name channel) 0%float)
                           chans data)
                (Some arm) (Some None))
      end
  end.

(** [_get_armature_actuator] *)
Definition _get_armature_actuator (w : World) : M unit :=
  fun self =>
    match armature self with
    | Some arm =>
        match dict_get (componentDict w) (obj_name (scene w) arm) with
        | Some act => (Ok tt, set_armature_actuator self (Some act))
        | None => (Ok tt, self)
        end
    | None => (Ok tt, self)
    end.

(** [get_joints] *)
Definition get_joints (w : World) : M (list string) :=
  chans <- self_armature_channels w ;;
  ret (map name chans).

(** [get_joint] *)
Definition get_joint (w : World) (joint : string) : M pyfloat :=
  bound <- self_armature_actuator ;;
  (match bound with
   | None => _get_armature_actuator w
   | Some _ => ret tt
   end) ;;;
  armature_actuator <- self_armature_actuator ;;
  match armature_actuator with
  | None => raise AttributeError
  | Some act =>
      cp <- lift (_get_joint (scene w) act joint) ;;
      let '(channel, is_prismatic) := cp in
      axis_index <- lift (next_true (enumerate (find_dof act channel))) ;;
      if is_prismatic
      then lift (vec_item (head_pose channel) axis_index)
      else lift (vec_item (joint_rotation channel) axis_index)
  end.

(** [get_state]: the loop body adds one key to the local [joints]. *)
Fixpoint get_state_loop (w : World) (chans : list Channel)
    (joints : Dict pyfloat) : M (Dict pyfloat) :=
  match chans with
  | [] => ret joints
  | channel :: rest =>
      v <- get_joint w (name channel) ;;
      get_state_loop w rest (dict_set joints (name channel) v)
  end.

Definition get_state (w : World) : M (Dict pyfloat) :=
  chans <- self_armature_channels w ;;
  get_state_loop w chans [].

(** The body of the loop of [default_action]: the [if] and the [elif]
    each read [self._armature_actuator._dofs[channel.name]]. *)
Definition default_action_body (channel : Channel) : M unit :=
  let segment_angle := joint_rotation channel in
  a1 <- self_armature_actuator ;;
  match a1 with
  | None => raise AttributeError
  | Some act1 =>
      if mask_item (_dofs act1 (name channel)) 1 then
        v <- lift (vec_item segment_angle 1) ;;
        fun self => (Ok tt, set_local_data self
                              (dict_set (local_data self) (name channel) v))
      else
        a2 <- self_armature_actuator ;;
        match a2 with
        | None => raise AttributeError
        | Some act2 =>
            if mask_item (_dofs act2 (name channel)) 2 then
              v <- lift (vec_item segment_angle 2) ;;
              fun self => (Ok tt, set_local_data self
                                    (dict_set (local_data self) (name channel) v))
            else ret tt
        end
  end.

(** [default_action]: the per-tick update of [local_data]. *)
Definition default_action (w : World) : M unit :=
  a <- self_armature ;;
  match a with
  | None => ret tt
  | Some _ =>
      bound <- self_armature_actuator ;;
      (match bound with
       | None => _get_armature_actuator w
       | Some _ => ret tt
       end) ;;;
      chans <- self_armature_channels w ;;
      for_each chans default_action_body
  end.

(** [get_joints_length].  The vector subtraction of mathutils and the
    float arithmetic of the interpreter are taken as given. *)
Section JointLengths.

Variable vector_sub : Vector -> Vector -> Vector.
Variable float_square : pyfloat -> pyfloat.           (* [x ** 2] *)
Variable float_add : pyfloat -> pyfloat -> pyfloat.
Variable math_sqrt : pyfloat -> pyfloat.

Definition channel_length (channel : Channel) : Result pyfloat :=
  let diff := vector_sub (pose_head channel) (pose_tail channel) in
  match vec_item diff 0, vec_item diff 1, vec_item diff 2 with
  | Ok d0, Ok d1, Ok d2 =>
      Ok (math_sqrt (float_add (float_add (float_square d0) (float_square d1))
                               (float_square d2)))
  | Err e, _, _ | _, Err e, _ | _, _, Err e => Err e
  end.

Fixpoint get_joints_length_loop (chans : list Channel)
    (lengths_dict : Dict pyfloat) : M (Dict pyfloat) :=
  match chans with
  | [] => ret lengths_dict
  | channel :: rest =>
      length <- lift (channel_length channel) ;;
      get_joints_length_loop rest (dict_set lengths_dict (name channel) length)
  end.

Definition get_joints_length (w : World) : M (Dict pyfloat) :=
  chans <- self_armature_channels w ;;
  get_joints_length_loop chans [].

End JointLengths.

(** * Notions used by the statements *)

(** ** Ancestors *)

(** The [k]-th ancestor of a body, the body itself for [k = 0]. *)
Fixpoint ancestor (sc : Scene) (k : nat) (obj : ObjId) : option ObjId :=
  match k with
  | 0 => Some obj
  | S k' =>
      match obj_parent sc obj with
      | Some p => ancestor sc k' p
      | None => None
      end
  end.

(** [r] is the nearest ancestor of [obj] (inclusive) that exposes a joint
    list, or [None] when no ancestor does. *)
Definition nearest_armature (sc : Scene) (obj : ObjId) (r : option ObjId) : Prop :=
  match r with
  | Some a =>
      exists k,
        ancestor sc k obj = Some a /\
        hasattr_channels sc a = true /\
        forall j b, j < k -> ancestor sc j obj = Some b ->
                    hasattr_channels sc b = false
  | None =>
      forall k b, ancestor sc k obj = Some b -> hasattr_channels sc b = false
  end.


(** ** Resolution of one joint *)

(** The actuator a call of [get_joint] or [default_action] works with:
    the one already bound, or else the one the registry holds under the
    armature's name at the time of the call. *)
Definition dof_source (w : World) (self : ArmaturePose) : option Actuator :=
  match _armature_actuator self with
  | Some (Some act) => Some act
  | Some None =>
      match armature self with
      | Some arm => dict_get (componentDict w) (obj_name (scene w) arm)
      | None => None
      end
  | None => None
  end.

(** The attributes after the binding attempt of such a call. *)
Definition settle (w : World) (self : ArmaturePose) : ArmaturePose :=
  match _armature_actuator self, dof_source w self with
  | Some None, Some act => set_armature_actuator self (Some act)
  | _, _ => self
  end.

(** The value of a joint as a given actuator resolves it. *)
Definition joint_value (sc : Scene) (act : Actuator) (joint : string)
  : Result pyfloat :=
  match _get_joint sc act joint with
  | Err e => Err e
  | Ok (channel, prismatic) =>
      match next_true (enumerate (find_dof act channel)) with
      | Err e => Err e
      | Ok axis_index =>
          if prismatic then vec_item (head_pose channel) axis_index
          else vec_item (joint_rotation channel) axis_index
      end
  end.

(** The pose vector that describes a joint of the given kind. *)
Definition pose_of (channel : Channel) (prismatic : bool) : Vector :=
  if prismatic then head_pose channel else joint_rotation channel.

(** [i] is the lowest index at which the mask is true. *)
Definition first_true_axis (m : Mask) (i : nat) : Prop :=
  mask_item m i = true /\ forall j, j < i -> mask_item m j = false.

(** [i] is the only index at which the mask is true. *)
Definition only_true_axis (m : Mask) (i : nat) : Prop :=
  mask_item m i = true /\ forall j, j <> i -> mask_item m j = false.

(** The errors that only the specification names. *)
Definition named_by_spec_only (e : Error) : bool :=
  match e with
  | NotAttached | NotReady | NoActiveAxis | MultipleActiveAxes => true
  | _ => false
  end.

(** What one step of the per-tick loop does to the published mapping
    under a given actuator. *)
Definition tick_step (act : Actuator) (d : Dict pyfloat) (c : Channel)
  : Dict pyfloat :=
  if mask_item (_dofs act (name c)) 1 then
    dict_set d (name c) (snd (fst (joint_rotation c)))
  else if mask_item (_dofs act (name c)) 2 then
    dict_set d (name c) (snd (joint_rotation c))
  else d.

(** ** Snapshots *)

(** The mapping a loop over the chain builds from a resolution function,
    stopping at the first joint that fails. *)
Fixpoint snapshot (f : string -> Result pyfloat) (chans : list Channel)
    (joints : Dict pyfloat) : Result (Dict pyfloat) :=
  match chans with
  | [] => Ok joints
  | channel :: rest =>
      match f (name channel) with
      | Ok v => snapshot f rest (dict_set joints (name channel) v)
      | Err e => Err e
      end
  end.

(** A method that leaves the published mapping as it found it. *)
Definition keeps_local_data {A} (m : M A) : Prop :=
  forall self, local_data (snd (m self)) = local_data self.

(** ** Scenes used as concrete inputs *)

Definition origin : Vector := (0, 0, 0)%float.

(** A robot (2) carrying an armature (1) named "arm" with the given
    chain; the sensor's body (0) is a child of the armature. *)
Definition arm_scene (chans : list Channel) : Scene :=
  mkScene
    (fun o => match o with 0 => "arm_pose" | 1 => "arm" | _ => "robot" end)
    (fun o => match o with 0 => Some 1 | 1 => Some 2 | _ => None end)
    (fun o => match o with 1 => Some chans | _ => None end).

(** A robot (2) carrying the sensor's body (0) directly: no armature. *)
Definition bare_scene : Scene :=
  mkScene
    (fun o => match o with 0 => "arm_pose" | _ => "robot" end)
    (fun o => match o with 0 => Some 2 | _ => None end)
    (fun _ => None).

Definition bare_world : World := mkWorld bare_scene [].

(** Joint A turns about Y by 0.7 rad; joint B slides along Z, its head at
    (0, 0, 1.5), and is not rotated. *)
Definition joint_A : Channel :=
  mkChannel "A" Rotational (0, 0.7, 0)%float origin origin origin.

Definition joint_B : Channel :=
  mkChannel "B" Prismatic origin (0, 0, 1.5)%float (0, 0, 1.5)%float origin.

Definition chain_AB : list Channel := [joint_A; joint_B].

Definition actuator_AB : Actuator :=
  mkActuator 1 (fun joint => if String.eqb joint "A"
                             then (false, true, false)
                             else (false, false, true)).

(** The two-joint arm before and after its actuator registers. *)
Definition world_AB_unregistered : World := mkWorld (arm_scene chain_AB) [].

Definition world_AB : World :=
  mkWorld (arm_scene chain_AB) [("arm", actuator_AB)].

(** The sensor as [__init__] leaves it on the two-joint arm. *)
Definition sensor_AB : ArmaturePose :=
  mkArmaturePose 0 [("A", 0%float); ("B", 0%float)] (Some 1) (Some None).

(** The sensor as [__init__] leaves it when no armature is found. *)
Definition sensor_detached : ArmaturePose := mkArmaturePose 0 [] None None.

(** A prismatic joint free along Y and a rotational joint free about Z. *)
Definition joint_slide : Channel :=
  mkChannel "slide" Prismatic origin (1.0, 2.5, -3.0)%float
            (1.0, 2.5, -3.0)%float origin.

Definition joint_turn : Channel :=
  mkChannel "turn" Rotational (0.0, 0.0, 1.2)%float origin origin origin.

Definition actuator_slide_turn : Actuator :=
  mkActuator 1 (fun joint => if String.eqb joint "slide"
                             then (false, true, false)
                             else (false, false, true)).

Definition world_slide_turn : World :=
  mkWorld (arm_scene [joint_slide; joint_turn]) [("arm", actuator_slide_turn)].

Definition sensor_slide_turn : ArmaturePose :=
  mkArmaturePose 0 [("slide", 0%float); ("turn", 0%float)] (Some 1) (Some None).

(** A rotational joint whose mask frees both X and Y, and one whose mask
    frees no axis. *)
Definition joint_XY : Channel :=
  mkChannel "xy" Rotational (0.3, 0.4, 0)%float origin origin origin.

Definition joint_stuck : Channel :=
  mkChannel "stuck" Rotational (0.3, 0.4, 0.5)%float origin origin origin.

Definition actuator_malformed : Actuator :=
  mkActuator 1 (fun joint => if String.eqb joint "xy"
                             then (true, true, false)
                             else (false, false, false)).

Definition world_malformed : World :=
  mkWorld (arm_scene [joint_XY; joint_stuck]) [("arm", actuator_malformed)].

Definition sensor_malformed : ArmaturePose :=
  mkArmaturePose 0 [("xy", 0%float); ("stuck", 0%float)] (Some 1) (Some None).

(** A rotational joint free about X, turned by 0.9 rad. *)
Definition joint_X : Channel :=
  mkChannel "X" Rotational (0.9, 0, 0)%float origin origin origin.

Definition actuator_X : Actuator :=
  mkActuator 1 (fun _ => (true, false, false)).

Definition world_X : World := mkWorld (arm_scene [joint_X]) [("arm", actuator_X)].

Definition sensor_X : ArmaturePose :=
  mkArmaturePose 0 [("X", 0%float)] (Some 1) (Some None).

(** Binary64 arithmetic on vectors and floats, used where a concrete
    arithmetic is needed for [get_joints_length]. *)
Definition binary64_vector_sub (a b : Vector) : Vector :=
  let '(a0, a1, a2) := a in
  let '(b0, b1, b2) := b in
  (PrimFloat.sub a0 b0, PrimFloat.sub a1 b1, PrimFloat.sub a2 b2).

Definition binary64_square (x : pyfloat) : pyfloat := PrimFloat.mul x x.

(** ** Notions for the properties of the mapping and of the tick *)

Definition dict_keys {V} (d : Dict V) : list string := map fst d.

(** The value one step of the per-tick loop writes for a joint, if any. *)
Definition tick_write (act : Actuator) (c : Channel) : option pyfloat :=
  if mask_item (_dofs act (name c)) 1 then Some (snd (fst (joint_rotation c)))
  else if mask_item (_dofs act (name c)) 2 then Some (snd (joint_rotation c))
  else None.

(** A method that leaves the attribute read by [proj] as it found it. *)
Definition keeps_attribute {T A} (proj : ArmaturePose -> T) (m : M A) : Prop :=
  forall self, proj (snd (m self)) = proj self.

(** The first [n] bodies on the way up from [obj] all exist, expose no
    joint list and have a parent. *)
Definition climbs_past (sc : Scene) (n : nat) (obj : ObjId) : Prop :=
  forall k, k < n ->
    exists b, ancestor sc k obj = Some b /\
              hasattr_channels sc b = false /\
              obj_parent sc b <> None.

Section BoneLength.

Variable vector_sub : Vector -> Vector -> Vector.
Variable float_square : pyfloat -> pyfloat.
Variable float_add : pyfloat -> pyfloat -> pyfloat.
Variable math_sqrt : pyfloat -> pyfloat.

(** The length [get_joints_length] computes for a channel. *)
Definition bone_length (c : Channel) : pyfloat :=
  let '(d0, d1, d2) := vector_sub (pose_head c) (pose_tail c) in
  math_sqrt (float_add (float_add (float_square d0) (float_square d1))
                       (float_square d2)).

End BoneLength.

(** ** Further concrete inputs *)

(** A scene whose parent links form a cycle 0 -> 1 -> 0, no armature. *)
Definition cyclic_scene : Scene :=
  mkScene
    (fun _ => "loop")
    (fun o => match o with 0 => Some 1 | _ => Some 0 end)
    (fun _ => None).

(** The sensor on the two-joint arm once its actuator is bound. *)
Definition sensor_AB_bound : ArmaturePose :=
  mkArmaturePose 0 [("A", 0%float); ("B", 0%float)] (Some 1)
                 (Some (Some actuator_AB)).

(** A bone from the origin to (0, 0, 3). *)
Definition joint_bone : Channel :=
  mkChannel "bone" Rotational origin origin origin (0, 0, 3)%float.

Definition world_bone : World := mkWorld (arm_scene [joint_bone]) [].

Definition sensor_bone : ArmaturePose :=
  mkArmaturePose 0 [("bone", 0%float)] (Some 1) (Some None).

Definition cyclic_world : World := mkWorld cyclic_scene [].

(** What ties a sensor to the scene: its own body and its armature. *)
Definition attachment (self : ArmaturePose) : ObjId * option ObjId :=
  (blender_obj self, armature self).
(** * Properties *)

(** ** Chain resolution *)

Lemma nearest_armature_here sc obj :
  hasattr_channels sc obj = true -> nearest_armature sc obj (Some obj).
Proof.
  intros Hc. exists 0. repeat split; auto.
  intros j b Hj. inversion Hj.
Qed.

Lemma nearest_armature_top sc obj :
  hasattr_channels sc obj = false -> obj_parent sc obj = None ->
  nearest_armature sc obj None.
Proof.
  intros Hc Hp [|k] b; simpl.
  - intros [= <-]. exact Hc.
  - rewrite Hp. discriminate.
Qed.

Lemma nearest_armature_up sc obj p r :
  hasattr_channels sc obj = false -> obj_parent sc obj = Some p ->
  nearest_armature sc p r -> nearest_armature sc obj r.
Proof.
  intros Hc Hp. destruct r as [a|]; simpl.
  - intros (k & Hk & Ha & Hbelow). exists (S k). simpl. rewrite Hp.
    repeat split; auto.
    intros [|j] b Hj; simpl.
    + intros [= <-]. exact Hc.
    + rewrite Hp. apply Hbelow. lia.
  - intros Hall [|k] b; simpl.
    + intros [= <-]. exact Hc.
    + rewrite Hp. apply Hall.
Qed.

(** C8.  For a body whose parent chain reaches the top after [n] links
    (it is finite, hence free of cycles), [_get_armature] returns as soon
    as the recursion budget covers the chain, and what it returns is the
    nearest ancestor of the body, the body included, that has channels,
    or [None] when no ancestor has.  The method reads the scene only: it
    takes and leaves no attribute of the sensor. *)
Theorem get_armature_nearest_ancestor :
  forall sc n obj fuel,
    ancestor sc n obj = None ->
    n <= fuel ->
    exists r, _get_armature sc fuel obj = Ok r /\ nearest_armature sc obj r.
Proof.
  intros sc n. induction n as [|n IH]; intros obj fuel Hn Hfuel.
  - discriminate Hn.
  - destruct fuel as [|fuel]; [lia|].
    simpl in Hn. simpl.
    destruct (hasattr_channels sc obj) eqn:Hc.
    + exists (Some obj). split; [reflexivity|].
      now apply nearest_armature_here.
    + destruct (obj_parent sc obj) as [p|] eqn:Hp.
      * destruct (IH p fuel Hn) as (r & Hr & Hnear); [lia|].
        exists r. split; [exact Hr|].
        now apply nearest_armature_up with p.
      * exists None. split; [reflexivity|].
        now apply nearest_armature_top.
Qed.

Lemma get_armature_nearest_ancestor_witness :
  (ancestor (arm_scene chain_AB) 3 0 = None /\ 3 <= 3) /\
  exists r,
    _get_armature (arm_scene chain_AB) 3 0 = Ok r /\
    nearest_armature (arm_scene chain_AB) 0 r.
Proof.
  split.
  - split; [reflexivity|apply le_n].
  - exact (get_armature_nearest_ancestor (arm_scene chain_AB) 3 0 3
             eq_refl (le_n 3)).
Defined.

(** ** Resolution of one joint *)

Ltac unfold_method :=
  unfold get_joint, get_joints, get_state, default_action,
    self_armature_channels, self_armature_actuator, self_armature,
    _get_armature_actuator, bind, ret, raise, lift in *.

Lemma get_joint_run w joint self :
  get_joint w joint self =
  (match dof_source w self with
   | Some act => joint_value (scene w) act joint
   | None => Err AttributeError
   end,
   settle w self).
Proof.
  unfold settle, dof_source, joint_value. unfold_method.
  destruct self as [bobj data arm [[act|]|]]; simpl.
  - destruct (_get_joint (scene w) act joint) as [[c p]|e]; [|reflexivity].
    destruct (next_true (enumerate (find_dof act c))); [|reflexivity].
    now destruct p.
  - destruct arm as [arm|]; [|reflexivity].
    destruct (dict_get (componentDict w) (obj_name (scene w) arm)) as [act|];
      simpl; [|reflexivity].
    destruct (_get_joint (scene w) act joint) as [[c p]|e]; [|reflexivity].
    destruct (next_true (enumerate (find_dof act c))); [|reflexivity].
    now destruct p.
  - reflexivity.
Qed.

Lemma dof_source_settle w self :
  dof_source w (settle w self) = dof_source w self.
Proof.
  unfold settle, dof_source.
  destruct self as [bobj data arm [[act|]|]]; simpl; try reflexivity.
  destruct arm as [arm|]; [|reflexivity].
  destruct (dict_get (componentDict w) (obj_name (scene w) arm)) eqn:E;
    simpl; now rewrite ?E.
Qed.

Lemma settle_settle w self : settle w (settle w self) = settle w self.
Proof.
  unfold settle at 1. rewrite dof_source_settle.
  unfold settle, dof_source.
  destruct self as [bobj data arm [[act|]|]]; simpl; try reflexivity.
  destruct arm as [arm|]; [|reflexivity].
  destruct (dict_get (componentDict w) (obj_name (scene w) arm)) eqn:E;
    simpl; now rewrite ?E.
Qed.

Lemma local_data_settle w self : local_data (settle w self) = local_data self.
Proof.
  unfold settle.
  destruct (_armature_actuator self) as [[?|]|]; try reflexivity.
  now destruct (dof_source w self).
Qed.

Lemma armature_settle w self : armature (settle w self) = armature self.
Proof.
  unfold settle.
  destruct (_armature_actuator self) as [[?|]|]; try reflexivity.
  now destruct (dof_source w self).
Qed.

Lemma get_joint_settled w joint self :
  fst (get_joint w joint (settle w self)) = fst (get_joint w joint self).
Proof. rewrite !get_joint_run. simpl. now rewrite dof_source_settle. Qed.

(** The first true entry of a mask is what [next] finds. *)
Lemma next_true_first m i :
  first_true_axis m i -> next_true (enumerate m) = Ok i.
Proof.
  destruct m as [[x y] z]. intros [Hi Hlow].
  destruct i as [|[|[|i]]]; simpl in Hi; try discriminate; subst.
  - reflexivity.
  - assert (Hx := Hlow 0 ltac:(lia)). simpl in Hx. now subst.
  - assert (Hx := Hlow 0 ltac:(lia)). assert (Hy := Hlow 1 ltac:(lia)).
    simpl in Hx, Hy. now subst.
Qed.

Lemma next_true_none m :
  count_true m = 0 -> next_true (enumerate m) = Err StopIteration.
Proof. destruct m as [[[] []] []]; simpl; intros H; now try discriminate H. Qed.

Lemma only_true_is_first m i : only_true_axis m i -> first_true_axis m i.
Proof. intros [Hi Hother]. split; [exact Hi|]. intros j Hj. apply Hother. lia. Qed.

Lemma first_true_axis_item m i v :
  first_true_axis m i -> exists x, vec_item v i = Ok x.
Proof.
  destruct m as [[x y] z], v as [[a b] c]. intros [Hi _].
  destruct i as [|[|[|i]]]; simpl in *; try discriminate; eauto.
Qed.

(** With the source bound (or found in the registry by this call), the
    joint known to it, and [i] the first free axis of its mask,
    [get_joint] reads component [i] of the joint's pose. *)
Lemma get_joint_reads_first_axis w self act joint c p i :
  dof_source w self = Some act ->
  _get_joint (scene w) act joint = Ok (c, p) ->
  first_true_axis (find_dof act c) i ->
  fst (get_joint w joint self) = vec_item (pose_of c p) i.
Proof.
  intros Hsrc Hj Hi. rewrite get_joint_run. simpl. rewrite Hsrc.
  unfold joint_value. rewrite Hj, (next_true_first _ _ Hi).
  now destruct p.
Qed.

(** ** Dictionaries *)

Lemma dict_get_set_same {V} (d : Dict V) k v :
  dict_get (dict_set d k v) k = Some v.
Proof.
  induction d as [|[k' v'] d IH]; simpl.
  - now rewrite String.eqb_refl.
  - destruct (String.eqb k' k) eqn:E; simpl; rewrite E; auto.
Qed.

Lemma dict_get_set_other {V} (d : Dict V) k k' v :
  k' <> k -> dict_get (dict_set d k v) k' = dict_get d k'.
Proof.
  intros Hne. induction d as [|[k0 v0] d IH]; simpl.
  - destruct (String.eqb_spec k k'); congruence.
  - destruct (String.eqb_spec k0 k) as [->|Hk]; simpl.
    + destruct (String.eqb_spec k k'); congruence.
    + now rewrite IH.
Qed.

(** ** The full state *)

Lemma snapshot_ext f g chans :
  (forall joint, f joint = g joint) ->
  forall joints, snapshot f chans joints = snapshot g chans joints.
Proof.
  intros Hfg. induction chans as [|c rest IH]; intros joints; simpl.
  - reflexivity.
  - rewrite Hfg. destruct (g (name c)); auto.
Qed.

(** A failed snapshot reports the error of the first joint that fails. *)
Lemma snapshot_first_error f chans :
  forall joints e,
    snapshot f chans joints = Err e ->
    exists pre c post,
      chans = (pre ++ c :: post)%list /\
      Forall (fun c' => is_ok (f (name c')) = true) pre /\
      f (name c) = Err e.
Proof.
  induction chans as [|c rest IH]; intros joints e; simpl.
  - discriminate.
  - destruct (f (name c)) as [v|e'] eqn:Hc.
    + intros Hrest. destruct (IH _ _ Hrest) as (pre & c' & post & -> & Hpre & Hc').
      exists (c :: pre), c', post. repeat split; auto.
      constructor; auto. now rewrite Hc.
    + intros [= ->]. exists [], c, rest. repeat split; auto.
Qed.

(** An entry that agrees with the resolution function survives the rest
    of the loop. *)
Lemma snapshot_keeps_entry f chans :
  forall joints m k v,
    snapshot f chans joints = Ok m ->
    dict_get joints k = Some v ->
    f k = Ok v ->
    dict_get m k = Some v.
Proof.
  induction chans as [|c rest IH]; intros joints m k v; simpl.
  - now intros [= <-].
  - destruct (f (name c)) as [vc|] eqn:Hc; [|discriminate].
    intros Hrest Hget Hfk. apply (IH _ _ _ _ Hrest); [|exact Hfk].
    destruct (String.eqb_spec k (name c)) as [->|Hne].
    + rewrite dict_get_set_same. congruence.
    + now rewrite dict_get_set_other.
Qed.

(** A successful snapshot holds every joint of the chain. *)
Lemma snapshot_complete f chans :
  forall joints m,
    snapshot f chans joints = Ok m ->
    Forall (fun c => exists v, f (name c) = Ok v /\ dict_get m (name c) = Some v)
           chans.
Proof.
  induction chans as [|c rest IH]; intros joints m; simpl.
  - constructor.
  - destruct (f (name c)) as [vc|] eqn:Hc; [|discriminate].
    intros Hrest. constructor.
    + exists vc. split; [exact Hc|].
      apply (snapshot_keeps_entry _ _ _ _ _ _ Hrest); [|exact Hc].
      apply dict_get_set_same.
    + apply (IH _ _ Hrest).
Qed.

Lemma snapshot_all_ok f chans :
  Forall (fun c => is_ok (f (name c)) = true) chans ->
  forall joints, exists m, snapshot f chans joints = Ok m.
Proof.
  induction 1 as [|c rest Hc _ IH]; intros joints; simpl.
  - now exists joints.
  - destruct (f (name c)); [apply IH|discriminate Hc].
Qed.

(** The loop of [get_state] is the snapshot taken with [get_joint]; from
    the second joint on, the attributes are those the first call left. *)
Lemma get_state_loop_run w chans :
  forall joints self,
    get_state_loop w chans joints self =
    (snapshot (fun joint => fst (get_joint w joint self)) chans joints,
     match chans with [] => self | _ :: _ => settle w self end).
Proof.
  induction chans as [|c rest IH]; intros joints self; simpl.
  - reflexivity.
  - unfold bind. rewrite get_joint_run at 1. rewrite get_joint_run at 1. simpl.
    destruct (dof_source w self) as [act|] eqn:Hsrc; [|reflexivity].
    destruct (joint_value (scene w) act (name c)) as [v|e]; [|reflexivity].
    rewrite IH. f_equal.
    + apply snapshot_ext. intros joint. apply get_joint_settled.
    + destruct rest; [reflexivity|apply settle_settle].
Qed.

Lemma get_state_run w self chans :
  fst (self_armature_channels w self) = Ok chans ->
  get_state w self = get_state_loop w chans [] self.
Proof.
  unfold_method. destruct (armature self) as [arm|]; simpl; [|discriminate].
  destruct (obj_channels (scene w) arm); simpl; [|discriminate].
  now intros [= ->].
Qed.

(** C7.  [get_state] resolves every joint of the chain with [get_joint].
    When it returns a mapping, every joint of the chain is a key of it,
    bound to the value [get_joint] gives for that joint; otherwise the
    call fails and its error is that of the first joint of the chain
    whose resolution fails, every joint before it resolving.  So a
    failing joint makes the whole call fail, and a mapping with keys
    missing is never returned. *)
Theorem get_state_complete_or_first_error :
  forall w self chans,
    fst (self_armature_channels w self) = Ok chans ->
    match fst (get_state w self) with
    | Ok joints =>
        Forall (fun c => exists v,
                    fst (get_joint w (name c) self) = Ok v /\
                    dict_get joints (name c) = Some v) chans
    | Err e =>
        exists pre c post,
          chans = (pre ++ c :: post)%list /\
          Forall (fun c' => is_ok (fst (get_joint w (name c') self)) = true) pre /\
          fst (get_joint w (name c) self) = Err e
    end.
Proof.
  intros w self chans Hch.
  rewrite (get_state_run _ _ _ Hch), get_state_loop_run. simpl.
  destruct (snapshot _ chans []) as [joints|e] eqn:Hsnap.
  - apply (snapshot_complete _ _ _ _ Hsnap).
  - apply (snapshot_first_error _ _ _ _ Hsnap).
Qed.

Lemma get_state_complete_or_first_error_witness :
  fst (self_armature_channels world_malformed sensor_malformed)
  = Ok [joint_XY; joint_stuck] /\
  exists pre c post,
    [joint_XY; joint_stuck] = (pre ++ c :: post)%list /\
    Forall (fun c' => is_ok (fst (get_joint world_malformed (name c')
                                            sensor_malformed)) = true) pre /\
    fst (get_joint world_malformed (name c) sensor_malformed) = Err StopIteration.
Proof.
  split.
  - reflexivity.
  - exact (get_state_complete_or_first_error
             world_malformed sensor_malformed [joint_XY; joint_stuck] eq_refl).
Defined.

(** ** The active axis *)

Lemma get_joint_kind sc act joint c p :
  _get_joint sc act joint = Ok (c, p) -> p = is_prismatic c.
Proof.
  unfold _get_joint. destruct (obj_channels sc (act_body act)); [|discriminate].
  destruct (find _ _); [|discriminate]. now intros [= <- <-].
Qed.

Lemma count_true_first m :
  1 <= count_true m -> exists i, first_true_axis m i.
Proof.
  destruct m as [[x y] z]. intros Hcount.
  destruct x; [exists 0|destruct y; [exists 1|destruct z; [exists 2|]]];
    try (simpl in Hcount; lia);
    (split; [reflexivity|]); intros j Hj;
    do 3 (destruct j as [|j]; [first [reflexivity | lia]|]); lia.
Qed.

(** [get_joint] raises none of the errors the specification names: its
    failures are those of the interpreter and of the actuator. *)
Lemma get_joint_raises_no_spec_error w joint self e :
  fst (get_joint w joint self) = Err e -> named_by_spec_only e = false.
Proof.
  rewrite get_joint_run. simpl.
  destruct (dof_source w self) as [act|]; [|now intros [= <-]].
  unfold joint_value, _get_joint.
  destruct (obj_channels (scene w) (act_body act)) as [chans|];
    [|now intros [= <-]].
  destruct (find _ chans) as [c|]; [|now intros [= <-]].
  unfold next_true. destruct (find _ (enumerate _)) as [[i b]|];
    [|now intros [= <-]].
  destruct (is_prismatic c), (head_pose c) as [[? ?] ?],
    (joint_rotation c) as [[? ?] ?];
    destruct i as [|[|[|i]]]; simpl; try discriminate; now intros [= <-].
Qed.

(** C6.  With the DOF source at hand, a joint it knows, and a mask whose
    only true entry is at index [i], [get_joint] returns component [i] of
    the head position for a prismatic joint and component [i] of the
    rotation vector for a rotational one, the stored float itself. *)
Theorem get_joint_single_axis_component :
  forall w self act joint c p i,
    dof_source w self = Some act ->
    _get_joint (scene w) act joint = Ok (c, p) ->
    only_true_axis (find_dof act c) i ->
    exists x,
      fst (get_joint w joint self) = Ok x /\
      match kind c with
      | Prismatic => vec_item (head_pose c) i
      | Rotational => vec_item (joint_rotation c) i
      end = Ok x.
Proof.
  intros w self act joint c p i Hsrc Hj Hone.
  apply only_true_is_first in Hone.
  destruct (first_true_axis_item _ _ (pose_of c p) Hone) as [x Hx].
  exists x. split.
  - rewrite (get_joint_reads_first_axis _ _ _ _ _ _ _ Hsrc Hj Hone). exact Hx.
  - rewrite <- Hx. rewrite (get_joint_kind _ _ _ _ _ Hj).
    unfold pose_of, is_prismatic. now destruct (kind c).
Qed.

Lemma get_joint_single_axis_component_witness :
  (dof_source world_slide_turn sensor_slide_turn = Some actuator_slide_turn /\
   _get_joint (scene world_slide_turn) actuator_slide_turn "slide"
   = Ok (joint_slide, true) /\
   only_true_axis (find_dof actuator_slide_turn joint_slide) 1) /\
  exists x,
    fst (get_joint world_slide_turn "slide" sensor_slide_turn) = Ok x /\
    vec_item (1.0, 2.5, -3.0)%float 1 = Ok x.
Proof.
  assert (Hone : only_true_axis (find_dof actuator_slide_turn joint_slide) 1).
  { split; [reflexivity|].
    intros j Hj. destruct j as [|[|[|j]]]; try reflexivity. now elim Hj. }
  split.
  - repeat split; try reflexivity; apply Hone.
  - exact (get_joint_single_axis_component
             world_slide_turn sensor_slide_turn actuator_slide_turn "slide"
             joint_slide true 1 eq_refl eq_refl Hone).
Defined.

(** The two readings the specification lists: 2.5 for the prismatic joint
    with mask [false, true, false] and head (1.0, 2.5, -3.0), and 1.2 for
    the rotational joint with mask [false, false, true] and rotation
    (0.0, 0.0, 1.2). *)
Example get_joint_slide_and_turn :
  fst (get_joint world_slide_turn "slide" sensor_slide_turn) = Ok 2.5%float /\
  fst (get_joint world_slide_turn "turn" sensor_slide_turn) = Ok 1.2%float.
Proof. split; reflexivity. Qed.

(** C3, as the code has it.  With the DOF source at hand and a joint it
    knows: a mask with no true entry makes [get_joint] fail, the search
    for a true entry ending in StopIteration; a mask with two or more
    true entries makes it return the component at the first true entry
    of the pose vector of the joint's kind. *)
Theorem get_joint_malformed_mask :
  forall w self act joint c p,
    dof_source w self = Some act ->
    _get_joint (scene w) act joint = Ok (c, p) ->
    (count_true (find_dof act c) = 0 ->
     fst (get_joint w joint self) = Err StopIteration) /\
    (2 <= count_true (find_dof act c) ->
     exists i x,
       first_true_axis (find_dof act c) i /\
       vec_item (pose_of c p) i = Ok x /\
       fst (get_joint w joint self) = Ok x).
Proof.
  intros w self act joint c p Hsrc Hj. split.
  - intros Hzero. rewrite get_joint_run. simpl. rewrite Hsrc.
    unfold joint_value. now rewrite Hj, (next_true_none _ Hzero).
  - intros Hmany.
    destruct (count_true_first (find_dof act c)) as [i Hi]; [lia|].
    destruct (first_true_axis_item _ _ (pose_of c p) Hi) as [x Hx].
    exists i, x. repeat split; try apply Hi; auto.
    now rewrite (get_joint_reads_first_axis _ _ _ _ _ _ _ Hsrc Hj Hi).
Qed.

Lemma get_joint_malformed_mask_witness :
  (dof_source world_malformed sensor_malformed = Some actuator_malformed /\
   _get_joint (scene world_malformed) actuator_malformed "stuck"
   = Ok (joint_stuck, false) /\
   count_true (find_dof actuator_malformed joint_stuck) = 0) /\
  fst (get_joint world_malformed "stuck" sensor_malformed) = Err StopIteration.
Proof.
  split.
  - repeat split.
  - exact (proj1 (get_joint_malformed_mask
                    world_malformed sensor_malformed actuator_malformed "stuck"
                    joint_stuck false eq_refl eq_refl) eq_refl).
Defined.

(** C3, as stated, fails.  On a sensor as the constructor leaves it, the
    mask of joint "xy" has two true entries and [get_joint] returns 0.3,
    the X component of its rotation, where the claim has it fail with
    MultipleActiveAxes; the mask of joint "stuck" has none and the
    failure is StopIteration, not NoActiveAxis. *)
Lemma get_joint_two_axes_returns_first :
  __init__ world_malformed 3 0 = Ok sensor_malformed /\
  count_true (find_dof actuator_malformed joint_XY) = 2 /\
  fst (get_joint world_malformed "xy" sensor_malformed) = Ok 0.3%float /\
  fst (get_joint world_malformed "xy" sensor_malformed) <> Err MultipleActiveAxes /\
  count_true (find_dof actuator_malformed joint_stuck) = 0 /\
  fst (get_joint world_malformed "stuck" sensor_malformed) <> Err NoActiveAxis.
Proof. repeat split; try reflexivity; discriminate. Qed.

(** ** Late binding of the DOF source *)

Lemma dof_source_unbound w self arm :
  armature self = Some arm ->
  _armature_actuator self = Some None ->
  dof_source w self = dict_get (componentDict w) (obj_name (scene w) arm).
Proof. unfold dof_source. now intros -> ->. Qed.

Lemma settle_unregistered w self :
  dof_source w self = None -> settle w self = self.
Proof.
  unfold settle. intros ->. now destruct (_armature_actuator self) as [[?|]|].
Qed.

Lemma self_armature_channels_run w self arm chans :
  armature self = Some arm ->
  obj_channels (scene w) arm = Some chans ->
  self_armature_channels w self = (Ok chans, self).
Proof. unfold_method. now intros -> ->. Qed.

(** C4, as the code has it.  Take a sensor whose DOF source is unbound.
    While the registry holds no component under the armature's name,
    [get_joint] fails, with the attribute error of the unbound reference,
    and leaves the sensor as it was, so the next call looks the registry
    up again.  Once a component is registered under that name, the next
    call binds it: [get_joint] returns the value of a joint the source
    knows and whose mask has a true entry, and [get_state] returns a
    mapping when every joint of the chain resolves; the sensor is not
    constructed anew. *)
Theorem get_joint_binds_on_a_later_call :
  forall w w' self arm joint,
    armature self = Some arm ->
    _armature_actuator self = Some None ->
    dict_get (componentDict w) (obj_name (scene w) arm) = None ->
    get_joint w joint self = (Err AttributeError, self) /\
    forall act,
      dict_get (componentDict w') (obj_name (scene w') arm) = Some act ->
      _armature_actuator (snd (get_joint w' joint self)) = Some (Some act) /\
      (forall c p i,
          _get_joint (scene w') act joint = Ok (c, p) ->
          first_true_axis (find_dof act c) i ->
          exists x, vec_item (pose_of c p) i = Ok x /\
                    fst (get_joint w' joint self) = Ok x) /\
      (forall chans,
          obj_channels (scene w') arm = Some chans ->
          Forall (fun c => is_ok (joint_value (scene w') act (name c)) = true)
                 chans ->
          exists joints, fst (get_state w' self) = Ok joints).
Proof.
  intros w w' self arm joint Harm Hunbound Hnone. split.
  - rewrite get_joint_run, settle_unregistered;
      rewrite (dof_source_unbound _ _ _ Harm Hunbound), Hnone; reflexivity.
  - intros act Hreg.
    assert (Hsrc : dof_source w' self = Some act)
      by now rewrite (dof_source_unbound _ _ _ Harm Hunbound).
    repeat split.
    + rewrite get_joint_run. simpl. unfold settle.
      now rewrite Hunbound, Hsrc.
    + intros c p i Hj Hi.
      destruct (first_true_axis_item _ _ (pose_of c p) Hi) as [x Hx].
      exists x. split; [exact Hx|].
      now rewrite (get_joint_reads_first_axis _ _ _ _ _ _ _ Hsrc Hj Hi).
    + intros chans Hch Hall.
      rewrite (get_state_run w' self chans)
        by now rewrite (self_armature_channels_run _ _ _ _ Harm Hch).
      rewrite get_state_loop_run. simpl.
      apply snapshot_all_ok.
      eapply Forall_impl; [|exact Hall]. intros c Hc. simpl.
      now rewrite get_joint_run, Hsrc.
Qed.

Lemma get_joint_binds_on_a_later_call_witness :
  (armature sensor_AB = Some 1 /\
   _armature_actuator sensor_AB = Some None /\
   dict_get (componentDict world_AB_unregistered)
            (obj_name (scene world_AB_unregistered) 1) = None) /\
  get_joint world_AB_unregistered "B" sensor_AB = (Err AttributeError, sensor_AB) /\
  forall act,
    dict_get (componentDict world_AB) (obj_name (scene world_AB) 1) = Some act ->
    _armature_actuator (snd (get_joint world_AB "B" sensor_AB)) = Some (Some act) /\
    (forall c p i,
        _get_joint (scene world_AB) act "B" = Ok (c, p) ->
        first_true_axis (find_dof act c) i ->
        exists x, vec_item (pose_of c p) i = Ok x /\
                  fst (get_joint world_AB "B" sensor_AB) = Ok x) /\
    (forall chans,
        obj_channels (scene world_AB) 1 = Some chans ->
        Forall (fun c => is_ok (joint_value (scene world_AB) act (name c)) = true)
               chans ->
        exists joints, fst (get_state world_AB sensor_AB) = Ok joints).
Proof.
  split.
  - repeat split.
  - exact (get_joint_binds_on_a_later_call
             world_AB_unregistered world_AB sensor_AB 1 "B"
             eq_refl eq_refl eq_refl).
Defined.

(** The late binding on the two-joint arm: the call before registration
    fails, the call after it returns the head's Z component. *)
Example get_joint_before_and_after_registration :
  fst (get_joint world_AB_unregistered "B" sensor_AB) = Err AttributeError /\
  snd (get_joint world_AB_unregistered "B" sensor_AB) = sensor_AB /\
  fst (get_joint world_AB "B" sensor_AB) = Ok 1.5%float /\
  fst (get_state world_AB sensor_AB) = Ok [("A", 0.7%float); ("B", 1.5%float)].
Proof. repeat split. Qed.

(** C4, as stated, fails: on a sensor as the constructor leaves it, with
    the DOF source unbound and not registered, [get_joint] fails with an
    attribute error, not with NotReady. *)
Lemma get_joint_unbound_not_NotReady :
  __init__ world_AB_unregistered 3 0 = Ok sensor_AB /\
  _armature_actuator sensor_AB = Some None /\
  dof_source world_AB_unregistered sensor_AB = None /\
  fst (get_joint world_AB_unregistered "A" sensor_AB) = Err AttributeError /\
  fst (get_joint world_AB_unregistered "A" sensor_AB) <> Err NotReady.
Proof. repeat split. discriminate. Qed.

(** ** What the queries leave untouched *)

Lemma keeps_ret {A} (a : A) : keeps_local_data (ret a).
Proof. now intros self. Qed.

Lemma keeps_raise {A} e : keeps_local_data (@raise A e).
Proof. now intros self. Qed.

Lemma keeps_lift {A} (r : Result A) : keeps_local_data (lift r).
Proof. now intros self. Qed.

Lemma keeps_bind {A B} (m : M A) (k : A -> M B) :
  keeps_local_data m -> (forall a, keeps_local_data (k a)) ->
  keeps_local_data (bind m k).
Proof.
  intros Hm Hk self. unfold bind. specialize (Hm self).
  destruct (m self) as [[a|e] self']; simpl in *.
  - now rewrite Hk.
  - exact Hm.
Qed.

Create HintDb keeps.

#[local] Hint Resolve keeps_ret keeps_raise keeps_lift : keeps.

Lemma keeps_self_armature_channels w :
  keeps_local_data (self_armature_channels w).
Proof.
  intros self. unfold_method.
  destruct (armature self) as [arm|]; [|reflexivity].
  now destruct (obj_channels (scene w) arm).
Qed.

Lemma keeps_get_joints w : keeps_local_data (get_joints w).
Proof.
  apply keeps_bind; auto with keeps. apply keeps_self_armature_channels.
Qed.

Lemma keeps_get_joint w joint : keeps_local_data (get_joint w joint).
Proof. intros self. rewrite get_joint_run. apply local_data_settle. Qed.

Lemma keeps_get_state_loop w chans :
  forall joints, keeps_local_data (get_state_loop w chans joints).
Proof.
  induction chans as [|c rest IH]; intros joints; simpl; auto with keeps.
  apply keeps_bind; [apply keeps_get_joint|]. intros v. apply IH.
Qed.

Lemma keeps_get_state w : keeps_local_data (get_state w).
Proof.
  apply keeps_bind; [apply keeps_self_armature_channels|].
  intros chans. apply keeps_get_state_loop.
Qed.

(** The constructor's early return leaves exactly this sensor. *)
Lemma init_detached w fuel obj self :
  __init__ w fuel obj = Ok self -> armature self = None ->
  self = mkArmaturePose obj [] None None.
Proof.
  unfold __init__, Sensor__init__.
  destruct (_get_armature (scene w) fuel obj) as [[arm|]|]; try discriminate.
  - destruct (obj_channels (scene w) arm); [|discriminate].
    intros [= <-]. discriminate.
  - now intros [= <-].
Qed.

Section Queries.

Variable vector_sub : Vector -> Vector -> Vector.
Variable float_square : pyfloat -> pyfloat.
Variable float_add : pyfloat -> pyfloat -> pyfloat.
Variable math_sqrt : pyfloat -> pyfloat.

Lemma keeps_get_joints_length w :
  keeps_local_data
    (get_joints_length vector_sub float_square float_add math_sqrt w).
Proof.
  apply keeps_bind; [apply keeps_self_armature_channels|].
  intros chans. generalize (@nil (string * pyfloat)).
  induction chans as [|c rest IH]; intros d; simpl; auto with keeps.
  apply keeps_bind; auto with keeps.
Qed.

(** C9.  No query writes the published mapping: whatever they return or
    raise, [get_joints], [get_state], [get_joint] and
    [get_joints_length] leave [local_data] as they found it. *)
Theorem queries_leave_local_data :
  forall w joint self,
    local_data (snd (get_joints w self)) = local_data self /\
    local_data (snd (get_state w self)) = local_data self /\
    local_data (snd (get_joint w joint self)) = local_data self /\
    local_data (snd (get_joints_length vector_sub float_square float_add
                                       math_sqrt w self))
    = local_data self.
Proof.
  intros w joint self. repeat split.
  - apply keeps_get_joints.
  - apply keeps_get_state.
  - apply keeps_get_joint.
  - apply keeps_get_joints_length.
Qed.

(** C5, as the code has it.  When the constructor finds no armature,
    every later query fails and returns nothing: [get_joints],
    [get_state] and [get_joints_length] at the channels of the absent
    armature, [get_joint] at the attribute the constructor never
    assigned; the failure is the interpreter's attribute error.  No
    call changes the sensor, so it stays that way, and the per-tick
    update returns at once. *)
Theorem detached_sensor_queries_fail :
  forall w fuel obj self,
    __init__ w fuel obj = Ok self ->
    armature self = None ->
    forall w' joint,
      get_joints w' self = (Err AttributeError, self) /\
      get_state w' self = (Err AttributeError, self) /\
      get_joint w' joint self = (Err AttributeError, self) /\
      get_joints_length vector_sub float_square float_add math_sqrt w' self
      = (Err AttributeError, self) /\
      default_action w' self = (Ok tt, self).
Proof.
  intros w fuel obj self Hinit Harm w' joint.
  rewrite (init_detached _ _ _ _ Hinit Harm). repeat split.
Qed.

End Queries.

Lemma detached_sensor_queries_fail_witness :
  (__init__ bare_world 2 0 = Ok sensor_detached /\
   armature sensor_detached = None) /\
  get_joints bare_world sensor_detached = (Err AttributeError, sensor_detached) /\
  get_state bare_world sensor_detached = (Err AttributeError, sensor_detached) /\
  get_joint bare_world "A" sensor_detached = (Err AttributeError, sensor_detached) /\
  get_joints_length binary64_vector_sub binary64_square PrimFloat.add
                    PrimFloat.sqrt bare_world sensor_detached
  = (Err AttributeError, sensor_detached) /\
  default_action bare_world sensor_detached = (Ok tt, sensor_detached).
Proof.
  split.
  - split; reflexivity.
  - exact (detached_sensor_queries_fail
             binary64_vector_sub binary64_square PrimFloat.add PrimFloat.sqrt
             bare_world 2 0 sensor_detached eq_refl eq_refl bare_world "A").
Defined.

(** C5, as stated, fails: after a construction that found no armature,
    [get_joints] fails with an attribute error, not with NotAttached. *)
Lemma detached_get_joints_not_NotAttached :
  __init__ bare_world 2 0 = Ok sensor_detached /\
  fst (get_joints bare_world sensor_detached) = Err AttributeError /\
  fst (get_joints bare_world sensor_detached) <> Err NotAttached.
Proof. repeat split. discriminate. Qed.

(** C10.  When the walk up the scene finds no armature, the constructor
    returns a sensor without armature whose published mapping is the one
    the base constructor created, that is, empty: it holds no joint
    entry, none having been initialised to 0.0. *)
Theorem init_without_armature_empty_mapping :
  forall w fuel obj,
    _get_armature (scene w) fuel obj = Ok None ->
    exists self,
      __init__ w fuel obj = Ok self /\
      armature self = None /\
      local_data self = snd (Sensor__init__ obj) /\
      local_data self = [].
Proof.
  intros w fuel obj Hnone. unfold __init__, Sensor__init__. rewrite Hnone.
  eexists. repeat split.
Qed.

Lemma init_without_armature_empty_mapping_witness :
  _get_armature (scene bare_world) 2 0 = Ok None /\
  exists self,
    __init__ bare_world 2 0 = Ok self /\
    armature self = None /\
    local_data self = snd (Sensor__init__ 0) /\
    local_data self = [].
Proof.
  split.
  - reflexivity.
  - exact (init_without_armature_empty_mapping bare_world 2 0 eq_refl).
Defined.

(** ** The per-tick update *)

Lemma set_local_data_twice self d1 d2 :
  set_local_data (set_local_data self d1) d2 = set_local_data self d2.
Proof. reflexivity. Qed.

Lemma set_local_data_same self : set_local_data self (local_data self) = self.
Proof. now destruct self. Qed.

(** With an actuator bound, one step of the loop writes the Y component
    of the joint's rotation when the mask's entry 1 is true, else its Z
    component when entry 2 is true, and otherwise writes nothing. *)
Lemma default_action_body_bound c self act :
  _armature_actuator self = Some (Some act) ->
  default_action_body c self =
  (Ok tt, set_local_data self (tick_step act (local_data self) c)).
Proof.
  intros Hact. unfold default_action_body, tick_step. unfold_method.
  rewrite Hact. destruct (joint_rotation c) as [[x y] z]. simpl.
  destruct (mask_item (_dofs act (name c)) 1); [reflexivity|].
  rewrite Hact.
  destruct (mask_item (_dofs act (name c)) 2); [reflexivity|].
  now rewrite set_local_data_same.
Qed.

Lemma for_each_default_action_body act chans :
  forall self,
    _armature_actuator self = Some (Some act) ->
    for_each chans default_action_body self =
    (Ok tt, set_local_data self (fold_left (tick_step act) chans (local_data self))).
Proof.
  induction chans as [|c rest IH]; intros self Hact; simpl.
  - unfold ret. now rewrite set_local_data_same.
  - unfold bind. rewrite (default_action_body_bound _ _ _ Hact).
    rewrite IH by exact Hact. reflexivity.
Qed.

(** A tick with the DOF source at hand: every joint of the chain goes
    through [tick_step], which reads [joint_rotation] and the mask's
    entries 1 and 2, and nothing else. *)
Lemma default_action_bound w self arm act chans :
  armature self = Some arm ->
  obj_channels (scene w) arm = Some chans ->
  dof_source w self = Some act ->
  default_action w self =
  (Ok tt,
   set_local_data (settle w self)
                  (fold_left (tick_step act) chans (local_data self))).
Proof.
  destruct self as [bobj data arm' [[act'|]|]]; simpl; intros -> Hch Hsrc;
    unfold dof_source in Hsrc; simpl in Hsrc; try discriminate.
  - injection Hsrc as ->. unfold settle, dof_source. simpl.
    unfold_method. simpl. rewrite Hch.
    now apply for_each_default_action_body.
  - unfold settle, dof_source. simpl. rewrite Hsrc.
    unfold_method. simpl. rewrite Hsrc. simpl. rewrite Hch.
    now rewrite (for_each_default_action_body act).
Qed.

(** With no actuator bound, the first step of the loop raises. *)
Lemma default_action_body_unbound c self :
  _armature_actuator self = Some None ->
  default_action_body c self = (Err AttributeError, self).
Proof.
  intros Hact. unfold default_action_body. unfold_method. now rewrite Hact.
Qed.

(** A tick with the DOF source unbound and absent from the registry
    writes nothing; it raises unless the chain is empty. *)
Lemma default_action_unbound w self arm chans :
  armature self = Some arm ->
  _armature_actuator self = Some None ->
  dict_get (componentDict w) (obj_name (scene w) arm) = None ->
  obj_channels (scene w) arm = Some chans ->
  default_action w self =
  (match chans with [] => Ok tt | _ :: _ => Err AttributeError end, self).
Proof.
  intros Harm Hact Hreg Hch. unfold_method.
  rewrite Harm, Hact, Harm, Hreg, Harm, Hch.
  destruct chans as [|c rest]; simpl; [reflexivity|].
  unfold bind. now rewrite (default_action_body_unbound _ _ Hact).
Qed.

(** C1, evaluated on the two-joint arm of the claim (A rotational about
    Y by 0.7, B prismatic along Z with head (0, 0, 1.5)).  After the
    constructor and one tick with the DOF source registered, the
    published mapping holds 0.7 for A and, for B, the Z component of B's
    rotation, 0.0, while [get_joint] and [get_state] give 1.5 for B: the
    tick reads [joint_rotation] whatever the kind of the joint. *)
Theorem tick_publishes_rotation_of_prismatic_joint :
  __init__ world_AB 3 0 = Ok sensor_AB /\
  fst (default_action world_AB sensor_AB) = Ok tt /\
  local_data (snd (default_action world_AB sensor_AB))
  = [("A", 0.7%float); ("B", 0%float)] /\
  fst (get_joint world_AB "B" (snd (default_action world_AB sensor_AB)))
  = Ok 1.5%float /\
  fst (get_state world_AB (snd (default_action world_AB sensor_AB)))
  = Ok [("A", 0.7%float); ("B", 1.5%float)] /\
  local_data (snd (default_action world_AB sensor_AB))
  <> [("A", 0.7%float); ("B", 1.5%float)].
Proof.
  repeat split.
  intros H.
  apply (f_equal (fun d => match dict_get d "B" with
                           | Some x => PrimFloat.ltb x 1%float
                           | None => false
                           end)) in H.
  vm_compute in H. discriminate H.
Qed.

(** The tick has no branch for the X axis: a rotational joint free about
    X keeps its initial 0.0 in the published mapping while [get_joint]
    returns its angle. *)
Example tick_skips_x_axis :
  default_action world_X sensor_X
  = (Ok tt, set_armature_actuator sensor_X (Some actuator_X)) /\
  local_data (snd (default_action world_X sensor_X)) = [("X", 0%float)] /\
  fst (get_joint world_X "X" sensor_X) = Ok 0.9%float.
Proof. repeat split. Qed.

(** C2, evaluated on the two-joint arm with the actuator not registered:
    the sensor is as the constructor left it, the tick cannot bind the
    DOF source, and it raises an attribute error at the first joint; the
    published mapping is unchanged. *)
Theorem tick_unbound_raises :
  __init__ world_AB_unregistered 3 0 = Ok sensor_AB /\
  dof_source world_AB_unregistered sensor_AB = None /\
  default_action world_AB_unregistered sensor_AB
  = (Err AttributeError, sensor_AB).
Proof. repeat split. Qed.

(** * Further properties *)

(** ** The walk up the scene *)

Lemma get_armature_sound sc fuel :
  forall obj r,
    _get_armature sc fuel obj = Ok r -> nearest_armature sc obj r.
Proof.
  induction fuel as [|fuel IH]; intros obj r; simpl; [discriminate|].
  destruct (hasattr_channels sc obj) eqn:Hc.
  - intros [= <-]. now apply nearest_armature_here.
  - destruct (obj_parent sc obj) as [p|] eqn:Hp.
    + intros Hr. apply nearest_armature_up with p; auto.
    + intros [= <-]. now apply nearest_armature_top.
Qed.

Lemma get_armature_more_fuel sc fuel :
  forall obj r fuel',
    _get_armature sc fuel obj = Ok r -> fuel <= fuel' ->
    _get_armature sc fuel' obj = Ok r.
Proof.
  induction fuel as [|fuel IH]; intros obj r fuel'; simpl; [discriminate|].
  intros Hr Hle. destruct fuel' as [|fuel']; [lia|]. simpl.
  destruct (hasattr_channels sc obj); [exact Hr|].
  destruct (obj_parent sc obj) as [p|]; [|exact Hr].
  apply IH; [exact Hr|lia].
Qed.

Lemma get_armature_has_channels sc fuel obj arm :
  _get_armature sc fuel obj = Ok (Some arm) -> hasattr_channels sc arm = true.
Proof.
  intros Hr. apply get_armature_sound in Hr.
  destruct Hr as (k & _ & Hc & _). exact Hc.
Qed.

(** X1.  Whatever the shape of the scene above the body, a result of
    [_get_armature] is the nearest ancestor (the body included) that has
    channels, or [None] when the top was reached with none found; and a
    larger recursion budget gives the same result. *)
Theorem get_armature_result_is_nearest :
  forall sc fuel obj r,
    _get_armature sc fuel obj = Ok r ->
    nearest_armature sc obj r /\
    forall fuel', fuel <= fuel' -> _get_armature sc fuel' obj = Ok r.
Proof.
  intros sc fuel obj r Hr. split.
  - exact (get_armature_sound _ _ _ _ Hr).
  - intros fuel' Hle. exact (get_armature_more_fuel _ _ _ _ _ Hr Hle).
Qed.

Lemma get_armature_result_is_nearest_witness :
  _get_armature (arm_scene chain_AB) 2 0 = Ok (Some 1) /\
  nearest_armature (arm_scene chain_AB) 0 (Some 1) /\
  forall fuel', 2 <= fuel' -> _get_armature (arm_scene chain_AB) fuel' 0 = Ok (Some 1).
Proof.
  split.
  - reflexivity.
  - exact (get_armature_result_is_nearest (arm_scene chain_AB) 2 0 (Some 1) eq_refl).
Defined.

Lemma climbs_past_step sc n obj p :
  hasattr_channels sc obj = false -> obj_parent sc obj = Some p ->
  (climbs_past sc (S n) obj <-> climbs_past sc n p).
Proof.
  intros Hc Hp. unfold climbs_past. split.
  - intros H k Hk. destruct (H (S k)) as (b & Hb & Hrest); [lia|].
    simpl in Hb. rewrite Hp in Hb. now exists b.
  - intros H [|k] Hk.
    + exists obj. repeat split; auto. now rewrite Hp.
    + destruct (H k) as (b & Hb & Hrest); [lia|].
      exists b. simpl. rewrite Hp. now split.
Qed.

(** X2.  [_get_armature] fails in one way only, by exhausting the
    recursion budget, and it does so exactly when each of the first
    [fuel] bodies on the way up has no channels and has a parent: the
    walk has no other stop, so on a parent cycle without armature it
    fails for every budget. *)
Theorem get_armature_fails_iff_budget_exhausted :
  forall sc fuel obj e,
    _get_armature sc fuel obj = Err e <->
    e = RecursionError /\ climbs_past sc fuel obj.
Proof.
  intros sc fuel. induction fuel as [|fuel IH]; intros obj e; simpl.
  - split.
    + intros [= <-]. split; [reflexivity|]. intros k Hk. lia.
    + now intros [-> _].
  - destruct (hasattr_channels sc obj) eqn:Hc.
    + split; [discriminate|]. intros [_ H].
      destruct (H 0) as (b & Hb & Hcb & _); [lia|].
      simpl in Hb. injection Hb as <-. congruence.
    + destruct (obj_parent sc obj) as [p|] eqn:Hp.
      * rewrite IH. now rewrite (climbs_past_step _ _ _ _ Hc Hp).
      * split; [discriminate|]. intros [_ H].
        destruct (H 0) as (b & Hb & _ & Hpb); [lia|].
        simpl in Hb. injection Hb as <-. congruence.
Qed.

(** On the two-body cycle every budget is exhausted. *)
Example get_armature_on_a_cycle :
  forall fuel obj, _get_armature cyclic_scene fuel obj = Err RecursionError.
Proof.
  induction fuel as [|fuel IH]; intros obj; simpl; [reflexivity|].
  destruct obj; apply IH.
Qed.

(** ** More on dictionaries *)

Lemma dict_get_set {V} (d : Dict V) k k' v :
  dict_get (dict_set d k v) k' = if String.eqb k k' then Some v else dict_get d k'.
Proof.
  destruct (String.eqb_spec k k') as [<-|Hne].
  - apply dict_get_set_same.
  - apply dict_get_set_other. congruence.
Qed.

Lemma dict_set_absent {V} (d : Dict V) k v :
  ~ In k (dict_keys d) -> dict_set d k v = (d ++ [(k, v)])%list.
Proof.
  induction d as [|[k0 v0] d IH]; simpl; intros Hnot; [reflexivity|].
  destruct (String.eqb_spec k0 k) as [->|Hne].
  - exfalso. apply Hnot. now left.
  - rewrite IH; [reflexivity|]. intros Hin. apply Hnot. now right.
Qed.

Lemma dict_keys_set_present {V} (d : Dict V) k v :
  In k (dict_keys d) -> dict_keys (dict_set d k v) = dict_keys d.
Proof.
  induction d as [|[k0 v0] d IH]; simpl; intros Hin; [contradiction|].
  destruct (String.eqb_spec k0 k) as [->|Hne]; simpl; [reflexivity|].
  f_equal. apply IH. destruct Hin as [Heq|Hin]; [congruence|exact Hin].
Qed.

Lemma dict_keys_set_incl {V} (d : Dict V) k v k' :
  In k' (dict_keys (dict_set d k v)) -> k' = k \/ In k' (dict_keys d).
Proof.
  induction d as [|[k0 v0] d IH]; simpl.
  - intros [<-|[]]. now left.
  - destruct (String.eqb_spec k0 k) as [->|Hne]; simpl.
    + intros [<-|Hin]; auto.
    + intros [<-|Hin]; auto. destruct (IH Hin); auto.
Qed.

Lemma dict_get_in_keys {V} (d : Dict V) k v :
  dict_get d k = Some v -> In k (dict_keys d).
Proof.
  induction d as [|[k0 v0] d IH]; simpl; [discriminate|].
  destruct (String.eqb_spec k0 k) as [->|Hne]; auto.
Qed.

Lemma dict_set_same_value {V} (d : Dict V) k v :
  dict_get d k = Some v -> dict_set d k v = d.
Proof.
  induction d as [|[k0 v0] d IH]; simpl; [discriminate|].
  destruct (String.eqb_spec k0 k) as [->|Hne].
  - now intros [= ->].
  - intros Hget. now rewrite IH.
Qed.

(** ** The constructor *)

Lemma init_zero_keeps (chans : list Channel) :
  forall (d : Dict pyfloat) k,
    dict_get d k = Some 0%float ->
    dict_get (fold_left (fun d c => dict_set d (name c) 0%float) chans d) k
    = Some 0%float.
Proof.
  induction chans as [|c rest IH]; intros d k Hget; simpl; [exact Hget|].
  apply IH. rewrite dict_get_set. now destruct (String.eqb (name c) k).
Qed.

Lemma init_zero_entries (chans : list Channel) :
  forall (d : Dict pyfloat) c,
    In c chans ->
    dict_get (fold_left (fun d c => dict_set d (name c) 0%float) chans d) (name c)
    = Some 0%float.
Proof.
  induction chans as [|c0 rest IH]; intros d c; simpl; [contradiction|].
  intros [->|Hin].
  - apply init_zero_keeps. apply dict_get_set_same.
  - now apply IH.
Qed.

Lemma init_zero_keys (chans : list Channel) :
  forall (d : Dict pyfloat) k,
    In k (dict_keys (fold_left (fun d c => dict_set d (name c) 0%float) chans d)) ->
    In k (dict_keys d) \/ In k (map name chans).
Proof.
  induction chans as [|c rest IH]; intros d k; simpl; [now left|].
  intros Hin. destruct (IH _ _ Hin) as [Hd|Hrest]; [|now right; right].
  destruct (dict_keys_set_incl _ _ _ _ Hd) as [->|Hd']; auto.
Qed.

Lemma init_zero_in_order (chans : list Channel) :
  forall d : Dict pyfloat,
    NoDup (dict_keys d ++ map name chans) ->
    fold_left (fun d c => dict_set d (name c) 0%float) chans d
    = (d ++ map (fun c => (name c, 0%float)) chans)%list.
Proof.
  induction chans as [|c rest IH]; intros d Hnd; simpl.
  - now rewrite app_nil_r.
  - assert (Hfresh : ~ In (name c) (dict_keys d)).
    { intros Hin. apply NoDup_remove_2 in Hnd. apply Hnd.
      apply in_or_app. now left. }
    rewrite (dict_set_absent _ _ _ Hfresh), IH.
    + now rewrite <- app_assoc.
    + unfold dict_keys in *. rewrite map_app, <- app_assoc. exact Hnd.
Qed.

(** X3.  When the walk finds an armature, the constructor returns a
    sensor attached to it, with the DOF source still unbound, whose
    published mapping holds 0.0 for every joint of the chain and no key
    that is not a joint; when the joint names are distinct the mapping
    lists the joints in chain order. *)
Theorem init_with_armature_publishes_zeros :
  forall w fuel obj arm,
    _get_armature (scene w) fuel obj = Ok (Some arm) ->
    exists chans self,
      obj_channels (scene w) arm = Some chans /\
      __init__ w fuel obj = Ok self /\
      blender_obj self = obj /\
      armature self = Some arm /\
      _armature_actuator self = Some None /\
      (forall c, In c chans -> dict_get (local_data self) (name c) = Some 0%float) /\
      (forall k, In k (dict_keys (local_data self)) -> In k (map name chans)) /\
      (NoDup (map name chans) ->
       local_data self = map (fun c => (name c, 0%float)) chans).
Proof.
  intros w fuel obj arm Hfound.
  assert (Hc := get_armature_has_channels _ _ _ _ Hfound).
  unfold hasattr_channels in Hc.
  destruct (obj_channels (scene w) arm) as [chans|] eqn:Hch; [|discriminate].
  unfold __init__, Sensor__init__. rewrite Hfound, Hch.
  eexists chans, _. repeat split; simpl.
  - intros c Hin. now apply init_zero_entries.
  - intros k Hin. destruct (init_zero_keys _ _ _ Hin) as [[]|Hk]. exact Hk.
  - intros Hnd. now rewrite init_zero_in_order.
Qed.

Lemma init_with_armature_publishes_zeros_witness :
  _get_armature (scene world_AB) 3 0 = Ok (Some 1) /\
  exists chans self,
    obj_channels (scene world_AB) 1 = Some chans /\
    __init__ world_AB 3 0 = Ok self /\
    blender_obj self = 0 /\
    armature self = Some 1 /\
    _armature_actuator self = Some None /\
    (forall c, In c chans -> dict_get (local_data self) (name c) = Some 0%float) /\
    (forall k, In k (dict_keys (local_data self)) -> In k (map name chans)) /\
    (NoDup (map name chans) ->
     local_data self = map (fun c => (name c, 0%float)) chans).
Proof.
  split.
  - reflexivity.
  - exact (init_with_armature_publishes_zeros world_AB 3 0 1 eq_refl).
Defined.

Lemma get_armature_error sc fuel :
  forall obj e,
    _get_armature sc fuel obj = Err e ->
    e = RecursionError /\ climbs_past sc fuel obj.
Proof.
  induction fuel as [|fuel IH]; intros obj e; simpl.
  - intros [= <-]. split; [reflexivity|]. intros k Hk. lia.
  - destruct (hasattr_channels sc obj) eqn:Hc; [discriminate|].
    destruct (obj_parent sc obj) as [p|] eqn:Hp; [|discriminate].
    intros Hwalk. destruct (IH _ _ Hwalk) as [-> Hclimb].
    split; [reflexivity|]. now apply (climbs_past_step _ _ _ _ Hc Hp).
Qed.

(** X4.  The constructor fails in one way only: the walk up the scene
    exhausted the recursion budget without meeting an armature or the
    top.  An armature that was found always has its channels, so the
    initialisation loop never fails. *)
Theorem init_fails_only_by_recursion :
  forall w fuel obj e,
    __init__ w fuel obj = Err e ->
    e = RecursionError /\
    _get_armature (scene w) fuel obj = Err RecursionError /\
    climbs_past (scene w) fuel obj.
Proof.
  intros w fuel obj e. unfold __init__, Sensor__init__.
  destruct (_get_armature (scene w) fuel obj) as [[arm|]|e'] eqn:Hwalk.
  - assert (Hc := get_armature_has_channels _ _ _ _ Hwalk).
    unfold hasattr_channels in Hc.
    destruct (obj_channels (scene w) arm); discriminate.
  - discriminate.
  - intros [= ->]. destruct (get_armature_error _ _ _ _ Hwalk) as [-> Hclimb].
    now repeat split.
Qed.

Lemma init_fails_only_by_recursion_witness :
  __init__ cyclic_world 5 0 = Err RecursionError /\
  RecursionError = RecursionError /\
  _get_armature (scene cyclic_world) 5 0 = Err RecursionError /\
  climbs_past (scene cyclic_world) 5 0.
Proof.
  split.
  - reflexivity.
  - exact (init_fails_only_by_recursion cyclic_world 5 0 RecursionError eq_refl).
Defined.

(** ** More on the queries *)

Lemma get_joint_bound w joint self act :
  _armature_actuator self = Some (Some act) ->
  get_joint w joint self = (joint_value (scene w) act joint, self).
Proof.
  intros Hb. rewrite get_joint_run. unfold settle, dof_source. now rewrite Hb.
Qed.

Lemma get_state_run_general w self :
  get_state w self =
  match armature self with
  | None => (Err AttributeError, self)
  | Some arm =>
      match obj_channels (scene w) arm with
      | None => (Err AttributeError, self)
      | Some chans =>
          (snapshot (fun joint => fst (get_joint w joint self)) chans [],
           match chans with [] => self | _ :: _ => settle w self end)
      end
  end.
Proof.
  destruct (armature self) as [arm|] eqn:Harm.
  - destruct (obj_channels (scene w) arm) as [chans|] eqn:Hch.
    + rewrite (get_state_run w self chans).
      * apply get_state_loop_run.
      * now rewrite (self_armature_channels_run _ _ _ _ Harm Hch).
    + unfold_method. now rewrite Harm, Hch.
  - unfold_method. now rewrite Harm.
Qed.

Lemma settle_bound w self act :
  _armature_actuator self = Some (Some act) -> settle w self = self.
Proof. intros Hb. unfold settle. now rewrite Hb. Qed.

Lemma default_action_run w self :
  default_action w self =
  match armature self with
  | None => (Ok tt, self)
  | Some arm =>
      match _armature_actuator self with
      | None => (Err AttributeError, self)
      | Some _ =>
          match obj_channels (scene w) arm with
          | None => (Err AttributeError, settle w self)
          | Some chans =>
              match dof_source w self with
              | Some act =>
                  (Ok tt,
                   set_local_data (settle w self)
                     (fold_left (tick_step act) chans (local_data self)))
              | None =>
                  (match chans with [] => Ok tt | _ :: _ => Err AttributeError end,
                   self)
              end
          end
      end
  end.
Proof.
  destruct (armature self) as [arm|] eqn:Harm;
    [|unfold_method; now rewrite Harm].
  destruct (_armature_actuator self) as [bound|] eqn:Hb;
    [|unfold_method; now rewrite Harm, Hb].
  destruct (obj_channels (scene w) arm) as [chans|] eqn:Hch.
  - destruct (dof_source w self) as [act|] eqn:Hsrc.
    + apply (default_action_bound _ _ _ _ _ Harm Hch Hsrc).
    + destruct bound as [act|].
      * unfold dof_source in Hsrc. rewrite Hb in Hsrc. discriminate.
      * apply (default_action_unbound _ _ _ _ Harm Hb); [|exact Hch].
        now rewrite <- (dof_source_unbound _ _ _ Harm Hb).
  - unfold settle, dof_source. unfold_method. rewrite Harm, Hb.
    destruct bound as [act|]; simpl.
    + now rewrite Harm, Hch.
    + rewrite Harm.
      destruct (dict_get (componentDict w) (obj_name (scene w) arm)); simpl;
        now rewrite Harm, Hch.
Qed.

(** X5.  Once the DOF source is bound the registry is never consulted
    again: in two worlds with the same scene, whatever their registries
    hold, [get_joint], [get_state] and [default_action] behave alike, and
    each leaves the binding in place. *)
Theorem bound_sensor_ignores_registry :
  forall w1 w2 self act joint,
    _armature_actuator self = Some (Some act) ->
    scene w1 = scene w2 ->
    get_joint w1 joint self = get_joint w2 joint self /\
    get_state w1 self = get_state w2 self /\
    default_action w1 self = default_action w2 self /\
    _armature_actuator (snd (get_joint w1 joint self)) = Some (Some act) /\
    _armature_actuator (snd (get_state w1 self)) = Some (Some act) /\
    _armature_actuator (snd (default_action w1 self)) = Some (Some act).
Proof.
  intros w1 w2 self act joint Hb Hsc.
  assert (Hsrc : forall w, dof_source w self = Some act)
    by (intros w; unfold dof_source; now rewrite Hb).
  assert (Hst : forall w, settle w self = self)
    by (intros w; now apply settle_bound with act).
  repeat split.
  - now rewrite !(get_joint_bound _ _ _ _ Hb), Hsc.
  - rewrite !get_state_run_general, !Hst, Hsc.
    destruct (armature self) as [arm|]; [|reflexivity].
    destruct (obj_channels (scene w2) arm) as [chans|]; [|reflexivity].
    f_equal. apply snapshot_ext. intros j.
    now rewrite !(get_joint_bound _ _ _ _ Hb), Hsc.
  - rewrite !default_action_run, !Hsrc, !Hst, Hb, Hsc. reflexivity.
  - now rewrite (get_joint_bound _ _ _ _ Hb).
  - rewrite get_state_run_general, Hst.
    destruct (armature self) as [arm|]; [|exact Hb].
    destruct (obj_channels (scene w1) arm) as [[|c rest]|]; exact Hb.
  - rewrite default_action_run, Hsrc, Hst, Hb.
    destruct (armature self) as [arm|]; [|exact Hb].
    destruct (obj_channels (scene w1) arm); exact Hb.
Qed.

Lemma bound_sensor_ignores_registry_witness :
  (_armature_actuator sensor_AB_bound = Some (Some actuator_AB) /\
   scene world_AB = scene world_AB_unregistered) /\
  get_joint world_AB "B" sensor_AB_bound
  = get_joint world_AB_unregistered "B" sensor_AB_bound /\
  get_state world_AB sensor_AB_bound
  = get_state world_AB_unregistered sensor_AB_bound /\
  default_action world_AB sensor_AB_bound
  = default_action world_AB_unregistered sensor_AB_bound /\
  _armature_actuator (snd (get_joint world_AB "B" sensor_AB_bound))
  = Some (Some actuator_AB) /\
  _armature_actuator (snd (get_state world_AB sensor_AB_bound))
  = Some (Some actuator_AB) /\
  _armature_actuator (snd (default_action world_AB sensor_AB_bound))
  = Some (Some actuator_AB).
Proof.
  split.
  - split; reflexivity.
  - exact (bound_sensor_ignores_registry
             world_AB world_AB_unregistered sensor_AB_bound actuator_AB "B"
             eq_refl eq_refl).
Defined.

(** X6.  The queries read the scene, never the published mapping:
    whatever [local_data] holds, [get_joints], [get_joint] and
    [get_state] return the same. *)
Theorem queries_do_not_read_local_data :
  forall w joint self d,
    fst (get_joints w (set_local_data self d)) = fst (get_joints w self) /\
    fst (get_joint w joint (set_local_data self d)) = fst (get_joint w joint self) /\
    fst (get_state w (set_local_data self d)) = fst (get_state w self).
Proof.
  intros w joint self d.
  assert (Hj : forall j, fst (get_joint w j (set_local_data self d))
                         = fst (get_joint w j self))
    by (intros j; now rewrite !get_joint_run).
  repeat split.
  - unfold_method. simpl. destruct (armature self) as [arm|]; [|reflexivity].
    now destruct (obj_channels (scene w) arm).
  - apply Hj.
  - rewrite !get_state_run_general. simpl.
    destruct (armature self) as [arm|]; [|reflexivity].
    destruct (obj_channels (scene w) arm) as [chans|]; [|reflexivity].
    simpl. now apply snapshot_ext.
Qed.

Lemma snapshot_keys f chans :
  forall joints m,
    snapshot f chans joints = Ok m ->
    NoDup (dict_keys joints ++ map name chans) ->
    dict_keys m = (dict_keys joints ++ map name chans)%list.
Proof.
  induction chans as [|c rest IH]; intros joints m; simpl.
  - intros [= <-] _. now rewrite app_nil_r.
  - destruct (f (name c)) as [v|]; [|discriminate].
    intros Hrest Hnd.
    assert (Hfresh : ~ In (name c) (dict_keys joints)).
    { intros Hin. apply NoDup_remove_2 in Hnd. apply Hnd.
      apply in_or_app. now left. }
    rewrite (dict_set_absent _ _ _ Hfresh) in Hrest.
    rewrite (IH _ _ Hrest); unfold dict_keys in *;
      rewrite map_app, <- app_assoc; [reflexivity|exact Hnd].
Qed.

(** X7.  On a chain whose joint names are distinct, the mapping
    [get_state] returns lists the joints in chain order: its keys are the
    list [get_joints] returns, one entry per joint. *)
Theorem get_state_keys_are_get_joints :
  forall w self chans joints,
    fst (self_armature_channels w self) = Ok chans ->
    NoDup (map name chans) ->
    fst (get_state w self) = Ok joints ->
    dict_keys joints = map name chans /\
    fst (get_joints w self) = Ok (dict_keys joints) /\
    List.length joints = List.length chans.
Proof.
  intros w self chans joints Hch Hnd Hst.
  rewrite (get_state_run _ _ _ Hch), get_state_loop_run in Hst. simpl in Hst.
  assert (Hk : dict_keys joints = map name chans)
    by (apply (snapshot_keys _ _ _ _ Hst); exact Hnd).
  repeat split.
  - exact Hk.
  - rewrite Hk. unfold get_joints, bind, ret.
    destruct (self_armature_channels w self) as [[l|e] s]; simpl in *;
      [|discriminate]. now injection Hch as ->.
  - rewrite <- (List.length_map fst joints). fold (dict_keys joints).
    now rewrite Hk, List.length_map.
Qed.

Lemma get_state_keys_are_get_joints_witness :
  (fst (self_armature_channels world_AB sensor_AB) = Ok chain_AB /\
   NoDup (map name chain_AB) /\
   fst (get_state world_AB sensor_AB)
   = Ok [("A", 0.7%float); ("B", 1.5%float)]) /\
  dict_keys [("A", 0.7%float); ("B", 1.5%float)] = map name chain_AB /\
  fst (get_joints world_AB sensor_AB)
  = Ok (dict_keys [("A", 0.7%float); ("B", 1.5%float)]) /\
  List.length [("A", 0.7%float); ("B", 1.5%float)] = List.length chain_AB.
Proof.
  assert (Hnd : NoDup (map name chain_AB)).
  { repeat constructor; simpl; intuition discriminate. }
  split.
  - repeat split. exact Hnd.
  - exact (get_state_keys_are_get_joints
             world_AB sensor_AB chain_AB [("A", 0.7%float); ("B", 1.5%float)]
             eq_refl Hnd eq_refl).
Defined.


(** ** What no operation touches *)

Lemma keeps_attribute_bind {T A B} (proj : ArmaturePose -> T)
    (m : M A) (k : A -> M B) :
  keeps_attribute proj m -> (forall a, keeps_attribute proj (k a)) ->
  keeps_attribute proj (bind m k).
Proof.
  intros Hm Hk self. unfold bind. specialize (Hm self).
  destruct (m self) as [[a|e] self']; simpl in *.
  - now rewrite Hk.
  - exact Hm.
Qed.

Lemma keeps_attribute_pure {T A} (proj : ArmaturePose -> T) (r : Result A) :
  keeps_attribute proj (lift r).
Proof. now intros self. Qed.

Lemma keeps_attribute_for_each {T A} (proj : ArmaturePose -> T)
    (xs : list A) (body : A -> M unit) :
  (forall x, keeps_attribute proj (body x)) ->
  keeps_attribute proj (for_each xs body).
Proof.
  intros Hbody. induction xs as [|x xs IH]; simpl.
  - now intros self.
  - apply keeps_attribute_bind; auto.
Qed.

Lemma attachment_channels w : keeps_attribute attachment (self_armature_channels w).
Proof.
  intros self. unfold_method.
  destruct (armature self) as [arm|]; [|reflexivity].
  now destruct (obj_channels (scene w) arm).
Qed.

Lemma attachment_settle w self : attachment (settle w self) = attachment self.
Proof.
  unfold settle.
  destruct (_armature_actuator self) as [[?|]|]; try reflexivity.
  now destruct (dof_source w self).
Qed.

Lemma attachment_get_joint w joint : keeps_attribute attachment (get_joint w joint).
Proof. intros self. rewrite get_joint_run. apply attachment_settle. Qed.

Lemma attachment_get_state w : keeps_attribute attachment (get_state w).
Proof.
  apply keeps_attribute_bind; [apply attachment_channels|].
  intros chans. generalize (@nil (string * pyfloat)).
  induction chans as [|c rest IH]; intros d; simpl.
  - now intros self.
  - apply keeps_attribute_bind; [apply attachment_get_joint|]. intros v. apply IH.
Qed.

Lemma attachment_default_action w : keeps_attribute attachment (default_action w).
Proof.
  intros self. rewrite default_action_run.
  destruct (armature self) as [arm|]; [|reflexivity].
  destruct (_armature_actuator self); [|reflexivity].
  destruct (obj_channels (scene w) arm).
  - destruct (dof_source w self); [|reflexivity]. simpl.
    apply attachment_settle.
  - apply attachment_settle.
Qed.


Section MoreQueries.

Variable vector_sub : Vector -> Vector -> Vector.
Variable float_square : pyfloat -> pyfloat.
Variable float_add : pyfloat -> pyfloat -> pyfloat.
Variable math_sqrt : pyfloat -> pyfloat.

Lemma channel_length_is_bone_length c :
  channel_length vector_sub float_square float_add math_sqrt c
  = Ok (bone_length vector_sub float_square float_add math_sqrt c).
Proof.
  unfold channel_length, bone_length.
  now destruct (vector_sub (pose_head c) (pose_tail c)) as [[d0 d1] d2].
Qed.

Lemma get_joints_length_loop_run chans :
  forall d self,
    get_joints_length_loop vector_sub float_square float_add math_sqrt chans d self
    = (Ok (fold_left
             (fun d c =>
                dict_set d (name c)
                  (bone_length vector_sub float_square float_add math_sqrt c))
             chans d),
       self).
Proof.
  induction chans as [|c rest IH]; intros d self; simpl; [reflexivity|].
  unfold bind, lift. rewrite channel_length_is_bone_length. apply IH.
Qed.

(** X9.  No operation re-attaches the sensor: after [get_joints],
    [get_state], [get_joint], [get_joints_length] or [default_action],
    whatever the outcome, [blender_obj] and [armature] are what the
    constructor set. *)
Theorem operations_keep_the_attachment :
  forall w joint self,
    attachment (snd (get_joints w self)) = attachment self /\
    attachment (snd (get_state w self)) = attachment self /\
    attachment (snd (get_joint w joint self)) = attachment self /\
    attachment (snd (get_joints_length vector_sub float_square float_add
                                       math_sqrt w self)) = attachment self /\
    attachment (snd (default_action w self)) = attachment self.
Proof.
  intros w joint self. repeat split.
  - apply (keeps_attribute_bind attachment); [apply attachment_channels|].
    now intros chans s.
  - apply attachment_get_state.
  - apply attachment_get_joint.
  - apply (keeps_attribute_bind attachment); [apply attachment_channels|].
    intros chans s. now rewrite get_joints_length_loop_run.
  - apply attachment_default_action.
Qed.


End MoreQueries.


(** The bone from the origin to (0, 0, 3) is 3.0 long. *)
Example get_joints_length_bone :
  fst (get_joints_length binary64_vector_sub binary64_square PrimFloat.add
                         PrimFloat.sqrt world_bone sensor_bone)
  = Ok [("bone", 3.0%float)].
Proof. reflexivity. Qed.

(** ** More on the per-tick update *)

Lemma tick_step_write act d c :
  tick_step act d c =
  match tick_write act c with
  | Some v => dict_set d (name c) v
  | None => d
  end.
Proof.
  unfold tick_step, tick_write.
  destruct (mask_item (_dofs act (name c)) 1); [reflexivity|].
  now destruct (mask_item (_dofs act (name c)) 2).
Qed.

Lemma tick_step_get act d c k :
  dict_get (tick_step act d c) k =
  match tick_write act c with
  | Some v => if String.eqb (name c) k then Some v else dict_get d k
  | None => dict_get d k
  end.
Proof.
  rewrite tick_step_write. destruct (tick_write act c); [|reflexivity].
  apply dict_get_set.
Qed.

Lemma tick_fold_other act chans :
  forall d k,
    ~ In k (map name chans) ->
    dict_get (fold_left (tick_step act) chans d) k = dict_get d k.
Proof.
  induction chans as [|c rest IH]; intros d k Hnot; simpl; [reflexivity|].
  rewrite IH by (intros Hin; apply Hnot; now right).
  rewrite tick_step_get. destruct (tick_write act c); [|reflexivity].
  destruct (String.eqb_spec (name c) k) as [Heq|]; [|reflexivity].
  exfalso. apply Hnot. now left.
Qed.

Lemma tick_fold_joint act chans :
  forall d c,
    NoDup (map name chans) -> In c chans ->
    dict_get (fold_left (tick_step act) chans d) (name c) =
    match tick_write act c with
    | Some v => Some v
    | None => dict_get d (name c)
    end.
Proof.
  induction chans as [|c0 rest IH]; intros d c Hnd; simpl; [contradiction|].
  inversion Hnd as [|? ? Hfresh Hnd']; subst.
  intros [->|Hin].
  - rewrite (tick_fold_other _ _ _ _ Hfresh), tick_step_get.
    destruct (tick_write act c); [|reflexivity]. now rewrite String.eqb_refl.
  - rewrite (IH _ _ Hnd' Hin), tick_step_get.
    destruct (tick_write act c); [reflexivity|].
    destruct (tick_write act c0); [|reflexivity].
    destruct (String.eqb_spec (name c0) (name c)) as [Heq|]; [|reflexivity].
    exfalso. apply Hfresh. rewrite Heq. now apply in_map.
Qed.

Lemma tick_fold_keys act chans :
  forall d,
    (forall c, In c chans -> In (name c) (dict_keys d)) ->
    dict_keys (fold_left (tick_step act) chans d) = dict_keys d.
Proof.
  induction chans as [|c rest IH]; intros d Hkeys; simpl; [reflexivity|].
  assert (Hstep : dict_keys (tick_step act d c) = dict_keys d).
  { rewrite tick_step_write. destruct (tick_write act c); [|reflexivity].
    apply dict_keys_set_present. apply Hkeys. now left. }
  rewrite IH; [exact Hstep|].
  intros c' Hin. rewrite Hstep. apply Hkeys. now right.
Qed.

Lemma tick_fold_fixed act chans :
  forall d,
    (forall c v, In c chans -> tick_write act c = Some v ->
                 dict_get d (name c) = Some v) ->
    fold_left (tick_step act) chans d = d.
Proof.
  induction chans as [|c rest IH]; intros d Hfix; simpl; [reflexivity|].
  assert (Hstep : tick_step act d c = d).
  { rewrite tick_step_write. destruct (tick_write act c) as [v|] eqn:Hw;
      [|reflexivity].
    apply dict_set_same_value. apply Hfix; [now left|exact Hw]. }
  rewrite Hstep. apply IH. intros c' v Hin. apply Hfix. now right.
Qed.

Lemma tick_fold_twice act chans d :
  NoDup (map name chans) ->
  fold_left (tick_step act) chans (fold_left (tick_step act) chans d)
  = fold_left (tick_step act) chans d.
Proof.
  intros Hnd. apply tick_fold_fixed. intros c v Hin Hw.
  now rewrite (tick_fold_joint _ _ _ _ Hnd Hin), Hw.
Qed.

Lemma find_by_name (chans : list Channel) c :
  NoDup (map name chans) -> In c chans ->
  find (fun c' => String.eqb (name c') (name c)) chans = Some c.
Proof.
  induction chans as [|c0 rest IH]; simpl; [contradiction|].
  intros Hnd. inversion Hnd as [|? ? Hfresh Hnd']; subst.
  intros [->|Hin].
  - now rewrite String.eqb_refl.
  - destruct (String.eqb_spec (name c0) (name c)) as [Heq|]; [|now apply IH].
    exfalso. apply Hfresh. rewrite Heq. now apply in_map.
Qed.

Lemma dof_source_after_settle_bound w self act :
  dof_source w self = Some act ->
  _armature_actuator (settle w self) = Some (Some act).
Proof.
  unfold settle. intros Hsrc. rewrite Hsrc.
  unfold dof_source in Hsrc.
  destruct (_armature_actuator self) as [[act'|]|] eqn:Hb; try discriminate.
  - now injection Hsrc as ->.
  - reflexivity.
Qed.

Lemma settle_keeps_assigned w self bound :
  _armature_actuator self = Some bound ->
  exists bound', _armature_actuator (settle w self) = Some bound'.
Proof.
  intros Hb. unfold settle. rewrite Hb.
  destruct bound as [act|]; [now exists (Some act)|].
  destruct (dof_source w self) as [act|]; [now exists (Some act)|now exists None].
Qed.



(** X12.  Where the tick and [get_joint] agree: for a rotational joint
    of a chain with distinct joint names, served by the actuator of that
    armature, whose mask is false at X and whose first true entry is at
    [i], the value a tick publishes for the joint is the value
    [get_joint] returns for it. *)
Theorem tick_agrees_with_get_joint_off_the_x_axis :
  forall w self arm act chans c i,
    armature self = Some arm ->
    obj_channels (scene w) arm = Some chans ->
    dof_source w self = Some act ->
    act_body act = arm ->
    NoDup (map name chans) ->
    In c chans ->
    kind c = Rotational ->
    first_true_axis (find_dof act c) i ->
    i <> 0 ->
    exists x,
      fst (get_joint w (name c) self) = Ok x /\
      dict_get (local_data (snd (default_action w self))) (name c) = Some x.
Proof.
  intros w self arm act chans c i Harm Hch Hsrc Hbody Hnd Hin Hkind Hi Hi0.
  assert (Hj : _get_joint (scene w) act (name c) = Ok (c, false)).
  { unfold _get_joint. rewrite Hbody, Hch, (find_by_name _ _ Hnd Hin).
    unfold is_prismatic. now rewrite Hkind. }
  rewrite (get_joint_reads_first_axis _ _ _ _ _ _ _ Hsrc Hj Hi).
  rewrite (default_action_bound _ _ _ _ _ Harm Hch Hsrc). simpl.
  rewrite (tick_fold_joint _ _ _ _ Hnd Hin).
  unfold tick_write, pose_of, find_dof in *.
  destruct Hi as [Htrue Hlow].
  destruct (joint_rotation c) as [[x y] z]. simpl.
  destruct i as [|[|[|i]]].
  - now elim Hi0.
  - rewrite Htrue. now exists y.
  - rewrite (Hlow 1 ltac:(lia)), Htrue. now exists z.
  - destruct (_dofs act (name c)) as [[? ?] ?]. discriminate Htrue.
Qed.

Lemma tick_agrees_with_get_joint_off_the_x_axis_witness :
  (armature sensor_AB = Some 1 /\
   obj_channels (scene world_AB) 1 = Some chain_AB /\
   dof_source world_AB sensor_AB = Some actuator_AB /\
   act_body actuator_AB = 1 /\
   NoDup (map name chain_AB) /\
   In joint_A chain_AB /\
   kind joint_A = Rotational /\
   first_true_axis (find_dof actuator_AB joint_A) 1 /\
   1 <> 0) /\
  exists x,
    fst (get_joint world_AB (name joint_A) sensor_AB) = Ok x /\
    dict_get (local_data (snd (default_action world_AB sensor_AB))) (name joint_A)
    = Some x.
Proof.
  assert (Hnd : NoDup (map name chain_AB)).
  { repeat constructor; simpl; intuition discriminate. }
  assert (Hfirst : first_true_axis (find_dof actuator_AB joint_A) 1).
  { split; [reflexivity|]. intros j Hj. destruct j; [reflexivity|lia]. }
  split.
  - repeat split; try assumption; try (now left); try apply Hfirst.
    discriminate.
  - exact (tick_agrees_with_get_joint_off_the_x_axis
             world_AB sensor_AB 1 actuator_AB chain_AB joint_A 1
             eq_refl eq_refl eq_refl eq_refl Hnd (or_introl eq_refl) eq_refl
             Hfirst (fun H => O_S 0 (eq_sym H))).
Defined.

(** X13.  A tick adds and removes no key: when every joint of the chain
    is already a key of the published mapping, as the constructor leaves
    it, the keys and their order are the same after [default_action],
    whatever its outcome. *)
Theorem tick_keeps_the_keys :
  forall w self,
    (forall arm chans c,
        armature self = Some arm ->
        obj_channels (scene w) arm = Some chans ->
        In c chans -> In (name c) (dict_keys (local_data self))) ->
    dict_keys (local_data (snd (default_action w self)))
    = dict_keys (local_data self).
Proof.
  intros w self Hkeys. rewrite default_action_run.
  destruct (armature self) as [arm|] eqn:Harm; [|reflexivity].
  destruct (_armature_actuator self); [|reflexivity].
  destruct (obj_channels (scene w) arm) as [chans|] eqn:Hch.
  - destruct (dof_source w self) as [act|]; [|reflexivity]. simpl.
    apply tick_fold_keys. intros c Hin. now apply (Hkeys arm chans).
  - simpl. now rewrite local_data_settle.
Qed.

Lemma tick_keeps_the_keys_witness :
  (forall arm chans c,
      armature sensor_AB = Some arm ->
      obj_channels (scene world_AB) arm = Some chans ->
      In c chans -> In (name c) (dict_keys (local_data sensor_AB))) /\
  dict_keys (local_data (snd (default_action world_AB sensor_AB)))
  = dict_keys (local_data sensor_AB).
Proof.
  assert (H : forall arm chans c,
             armature sensor_AB = Some arm ->
             obj_channels (scene world_AB) arm = Some chans ->
             In c chans -> In (name c) (dict_keys (local_data sensor_AB))).
  { intros arm chans c Harm. injection Harm as <-. simpl.
    intros Hch. injection Hch as <-.
    intros [<-|[<-|[]]]; simpl; auto. }
  split.
  - exact H.
  - exact (tick_keeps_the_keys world_AB sensor_AB H).
Defined.

(** X14.  On an unchanged world a second tick changes nothing: for a
    chain with distinct joint names, [default_action] run on the sensor
    that [default_action] left gives the same outcome and the same
    sensor. *)
Theorem tick_twice_is_tick_once :
  forall w self,
    (forall arm chans,
        armature self = Some arm ->
        obj_channels (scene w) arm = Some chans ->
        NoDup (map name chans)) ->
    default_action w (snd (default_action w self)) = default_action w self.
Proof.
  intros w self Hnd. rewrite (default_action_run w self).
  destruct (armature self) as [arm|] eqn:Harm.
  - destruct (_armature_actuator self) as [bound|] eqn:Hb.
    + destruct (obj_channels (scene w) arm) as [chans|] eqn:Hch.
      * destruct (dof_source w self) as [act|] eqn:Hsrc; simpl.
        -- assert (Hb' := dof_source_after_settle_bound _ _ _ Hsrc).
           rewrite default_action_run. simpl.
           rewrite armature_settle, Harm, Hb', Hch.
           unfold dof_source at 1. simpl. rewrite Hb'.
           unfold settle at 1. simpl. rewrite Hb'.
           rewrite tick_fold_twice by now apply (Hnd arm).
           reflexivity.
        -- rewrite default_action_run, Harm, Hb, Hch, Hsrc. reflexivity.
      * simpl. rewrite default_action_run.
        destruct (settle_keeps_assigned w _ _ Hb) as [bound' Hb'].
        now rewrite armature_settle, Harm, Hb', Hch, settle_settle.
    + simpl. rewrite default_action_run, Harm, Hb. reflexivity.
  - simpl. rewrite default_action_run, Harm. reflexivity.
Qed.

Lemma tick_twice_is_tick_once_witness :
  (forall arm chans,
      armature sensor_AB = Some arm ->
      obj_channels (scene world_AB) arm = Some chans ->
      NoDup (map name chans)) /\
  default_action world_AB (snd (default_action world_AB sensor_AB))
  = default_action world_AB sensor_AB.
Proof.
  assert (H : forall arm chans,
             armature sensor_AB = Some arm ->
             obj_channels (scene world_AB) arm = Some chans ->
             NoDup (map name chans)).
  { intros arm chans Harm. injection Harm as <-. simpl.
    intros Hch. injection Hch as <-.
    repeat constructor; simpl; intuition discriminate. }
  split.
  - exact H.
  - exact (tick_twice_is_tick_once world_AB sensor_AB H).
Defined.


